(** * SUI Trading DEX: the liquidity-pool client, [suiLiquidityPool.js]

    A shallow embedding of the class [SuiLiquidityPool] and of the table
    [FEE_TIERS], followed by the properties of the specification that
    concern them.

    Conventions of the embedding:
    - a JavaScript number is an IEEE 754 binary64 value, here Rocq's
      primitive [float]; arithmetic on numbers is the kernel's binary64
      arithmetic, so [0.0005 * 1000000] is computed as JavaScript computes it;
    - a JavaScript string is a [string]; a character is one code unit below
      256 (the type names, identifiers and decimal fields that this client
      handles are ASCII);
    - a thrown [Error] is a value of [exn]; a function that can throw returns
      [exn + A]; an [async] method is the same, a rejected promise being a
      thrown error at the [await];
    - the object's mutable cache and the calls made to the outside world are
      threaded through a small state-and-error monad [M];
    - the collaborators (the JSON-RPC provider, the signer) are records of
      functions giving their answers. *)

From Stdlib Require Import ZArith Floats Ascii.
From stdpp Require Import gmap strings list pretty.

Set Warnings "-inexact-float,-clear-no-such-hyp".
Set Default Proof Using "Type".

Open Scope Z_scope.

(** ** JavaScript values used by the client *)

Module Js.

(** [number]: binary64. *)
Abbreviation number := float.

(** The values that reach [txb.pure] and the template strings. *)
Inductive value :=
| undefined
| Num (x : number)
| Str (s : string).

(** [ToNumber] on the values above that occur as operands of [*]:
    [undefined] is [NaN]. A string operand never occurs there. *)
Definition ToNumber (v : value) : number :=
  match v with
  | Num x => x
  | undefined | Str _ => nan
  end.

(** [a * b] *)
Definition mul (a b : value) : number :=
  PrimFloat.mul (ToNumber a) (ToNumber b).

(** The truthiness of a string: only the empty string is falsy. *)
Definition truthy_string (s : string) : bool :=
  match s with EmptyString => false | _ => true end.

(** [o || d] where [o] is an optional string property (absent is
    [undefined]). *)
Definition or_default {A} (inj : string → A) (o : option string) (d : A) : A :=
  match o with
  | Some s => if truthy_string s then inj s else d
  | None => d
  end.

(** [hay.includes(needle)] *)
Fixpoint includes (needle hay : string) : bool :=
  String.prefix needle hay ||
  match hay with
  | EmptyString => false
  | String _ rest => includes needle rest
  end.

(** [xs.find(p)] *)
Fixpoint find {A} (p : A → bool) (xs : list A) : option A :=
  match xs with
  | [] => None
  | x :: rest => if p x then Some x else find p rest
  end.

(** [s.slice(0, k)] and [s.slice(k)] *)
Fixpoint take (k : nat) (s : string) : string :=
  match k, s with
  | S k', String c rest => String c (take k' rest)
  | _, _ => EmptyString
  end.

Fixpoint drop (k : nat) (s : string) : string :=
  match k, s with
  | S k', String _ rest => drop k' rest
  | _, _ => s
  end.

(** The length of the longest prefix whose characters all satisfy [p]. *)
Fixpoint span (p : Ascii.ascii → bool) (s : string) : nat :=
  match s with
  | String c rest => if p c then S (span p rest) else 0%nat
  | EmptyString => 0%nat
  end.

(** White space as [\s] and [parseInt] see it, among code units below 256:
    TAB, LF, VT, FF, CR, SPACE and NBSP. *)
Definition is_space (c : Ascii.ascii) : bool :=
  let n := Ascii.nat_of_ascii c in
  ((9 <=? n) && (n <=? 13) || (n =? 32) || (n =? 160))%nat.

(** The number nearest to an integer (ties to even), as a numeric literal
    or [parseInt] yields it. *)
Definition of_Z (z : Z) : number :=
  SF2Prim (binary_normalize prec emax z 0 false).

(** [Math.floor]. A finite number with a non-negative exponent, a zero, an
    infinity and [NaN] are returned as they are; otherwise the number is
    [± m * 2^e] with [e < 0] and the integer part is below [2^53]. *)
Definition Math_floor (x : number) : number :=
  match Prim2SF x with
  | S754_finite s m e =>
      if 0 <=? e then x
      else
        let d := 2 ^ (- e) in
        if s then PrimFloat.opp (of_Z ((Z.pos m + d - 1) / d))
        else of_Z (Z.pos m / d)
  | _ => x
  end.

End Js.

(** ** Errors *)

(** [new Error(message)] *)
Inductive exn := Error (message : string).

Definition message (e : exn) : string := let 'Error m := e in m.

Definition throws (A : Type) : Type := exn + A.

(** ** Constants for the DEX (lines 15-22) *)

Definition DEX_PACKAGE_ID : string :=
  "0x123456789abcdef123456789abcdef123456789abcdef123456789abcdef1234".
Definition MODULE_NAME : string := "liquidity_pool".
Definition LP_REGISTRY_ID : string :=
  "0xabcdef123456789abcdef123456789abcdef123456789abcdef123456789abcd".

Record FeeTier := { fee : Js.number; tickSpacing : Js.number }.

(** The own properties of the object literal [FEE_TIERS]. *)
Definition FEE_TIERS : gmap string FeeTier :=
  <["LOW" := {| fee := 0.0005; tickSpacing := 10 |}]>
  (<["MEDIUM" := {| fee := 0.003; tickSpacing := 60 |}]>
  (<["HIGH" := {| fee := 0.01; tickSpacing := 200 |}]> ∅)).

(** [FEE_TIERS] is an ordinary object: a property that is not its own is
    looked up in [Object.prototype], whose properties are these. Each of
    them is a function, except [__proto__], an accessor that returns
    [Object.prototype] itself; all of them are truthy. *)
Definition Object_prototype : list string :=
  [ "constructor"; "hasOwnProperty"; "isPrototypeOf"; "propertyIsEnumerable";
    "toLocaleString"; "toString"; "valueOf"; "__proto__";
    "__defineGetter__"; "__defineSetter__"; "__lookupGetter__";
    "__lookupSetter__" ].

(** What [FEE_TIERS[feeTier]] evaluates to. *)
Inductive tier_value :=
| Tier (t : FeeTier)            (* one of the three own properties *)
| Inherited (name : string)     (* a member of [Object.prototype] *)
| NoTier.                       (* [undefined] *)

Definition FEE_TIERS_get (feeTier : string) : tier_value :=
  match FEE_TIERS !! feeTier with
  | Some t => Tier t
  | None =>
      if bool_decide (feeTier ∈ Object_prototype) then Inherited feeTier
      else NoTier
  end.

(** [!tier] *)
Definition tier_falsy (t : tier_value) : bool :=
  match t with NoTier => true | _ => false end.

(** [tier.fee] and [tier.tickSpacing]: a function object, and
    [Object.prototype], have neither property. *)
Definition tier_fee (t : tier_value) : Js.value :=
  match t with Tier t => Js.Num (fee t) | _ => Js.undefined end.
Definition tier_tickSpacing (t : tier_value) : Js.value :=
  match t with Tier t => Js.Num (tickSpacing t) | _ => Js.undefined end.

(** Lines 79-82: the lookup and its guard. *)
Definition invalid_fee_tier (feeTier : string) : exn :=
  Error ("Invalid fee tier: " +:+ feeTier +:+ ". Must be LOW, MEDIUM, or HIGH.").

Definition resolve_tier (feeTier : string) : throws tier_value :=
  let tier := FEE_TIERS_get feeTier in
  if tier_falsy tier then inl (invalid_fee_tier feeTier) else inr tier.

(** Line 107: [tier.fee * 1000000], the fee in parts per million. *)
Definition fee_ppm (t : tier_value) : Js.number :=
  Js.mul (tier_fee t) (Js.Num 1000000).

(** ** The constructor (lines 29-48) *)

(** The argument given to [new JsonRpcProvider(...)]: one of the three
    connections exported by the SDK, or an endpoint of the caller's. *)
Inductive connection :=
| devnetConnection
| testnetConnection
| mainnetConnection
| Endpoint (url : string).

Record Config := {
  cfg_network : option string;
  cfg_rpcEndpoint : option string;
  cfg_packageId : option string;
  cfg_lpRegistryId : option string;
  cfg_moduleName : option string
}.

(** [{}], the default of the parameter [config]. *)
Definition empty_config : Config :=
  {| cfg_network := None; cfg_rpcEndpoint := None; cfg_packageId := None;
     cfg_lpRegistryId := None; cfg_moduleName := None |}.

Definition select_connection (config : Config) : connection :=
  let network := Js.or_default id (cfg_network config) "mainnet" in
  if String.eqb network "devnet" then devnetConnection
  else if String.eqb network "testnet" then testnetConnection
  else (* case 'mainnet': default: *)
    Js.or_default Endpoint (cfg_rpcEndpoint config) mainnetConnection.

(** ** Regular expressions and [parseInt] *)

Module Re.

(** The constructs of the one pattern of the client,
    [/<([^,]+),\s*([^>]+)>/]: a literal character, a capturing group
    [([^c]+)] and [\s*]. *)
Inductive atom :=
| Lit (c : Ascii.ascii)
| GroupNot (c : Ascii.ascii)
| Spaces.

(** A greedy quantifier tries the longest repetition first and gives
    characters back one at a time. *)
Fixpoint longest_first {A} (f : nat → option A) (n : nat) : option A :=
  match f n with
  | Some r => Some r
  | None => match n with O => None | S n' => longest_first f n' end
  end.

(** Match the pattern at the start of [s]; the result lists the captures. *)
Fixpoint match_here (p : list atom) (s : string) : option (list string) :=
  match p with
  | [] => Some []
  | Lit c :: p' =>
      match s with
      | String c' rest => if Ascii.eqb c c' then match_here p' rest else None
      | EmptyString => None
      end
  | GroupNot c :: p' =>
      longest_first
        (λ k, match k with
              | O => None
              | _ => cons (Js.take k s) <$> match_here p' (Js.drop k s)
              end)
        (Js.span (λ x, negb (Ascii.eqb x c)) s)
  | Spaces :: p' =>
      longest_first (λ k, match_here p' (Js.drop k s)) (Js.span Js.is_space s)
  end.

(** [s.match(p)] without the [g] flag: the leftmost match. *)
Fixpoint exec (p : list atom) (s : string) : option (list string) :=
  match match_here p s with
  | Some caps => Some caps
  | None => match s with
            | String _ rest => exec p rest
            | EmptyString => None
            end
  end.

End Re.

(** [/<([^,]+),\s*([^>]+)>/] (line 195) *)
Definition pool_type_pattern : list Re.atom :=
  [Re.Lit "<"%char; Re.GroupNot ","%char; Re.Lit ","%char; Re.Spaces;
   Re.GroupNot ">"%char; Re.Lit ">"%char].

Module ParseInt.

Definition digit (radix : Z) (c : Ascii.ascii) : option Z :=
  let n := Z.of_nat (Ascii.nat_of_ascii c) in
  let v := if (48 <=? n) && (n <=? 57) then n - 48
           else if (97 <=? n) && (n <=? 122) then n - 87
           else if (65 <=? n) && (n <=? 90) then n - 55
           else radix in
  if v <? radix then Some v else None.

(** The value of the longest prefix of digits, if it is not empty. *)
Fixpoint digits (radix : Z) (acc : option Z) (s : string) : option Z :=
  match s with
  | String c rest =>
      match digit radix c with
      | Some v => digits radix (Some (default 0 acc * radix + v)) rest
      | None => acc
      end
  | EmptyString => acc
  end.

Definition sign (s : string) : bool * string :=
  match s with
  | String "-"%char rest => (true, rest)
  | String "+"%char rest => (false, rest)
  | _ => (false, s)
  end.

Definition radix (s : string) : Z * string :=
  if String.prefix "0x" s || String.prefix "0X" s then (16, Js.drop 2 s)
  else (10, s).

(** [parseInt(s)], with one argument. Past twenty significant digits an
    implementation may approximate; the correctly rounded value is taken
    here. *)
Definition parseInt (s : string) : Js.number :=
  let '(neg, s) := sign (Js.drop (Js.span Js.is_space s) s) in
  let '(r, s) := radix s in
  match digits r None s with
  | None => nan
  | Some z => if neg then PrimFloat.opp (Js.of_Z z) else Js.of_Z z
  end.

End ParseInt.

(** ** The collaborators *)

(** An entry of the answer of [provider.getCoins]. *)
Record Coin := { coinObjectId : string }.

Record GetCoinsRequest := {
  owner : string;
  coinType : option string;
  limit : option Z
}.

(** [poolObject.data.content.fields] of a pool object. The client reads five
    fields; the ledger sends integers as decimal strings. *)
Record PoolFields := {
  sqrt_price_x96 : string;
  liquidity : string;
  fee_field : string;            (* [fee] *)
  tick_spacing : string;
  current_tick : string
}.

(** The part of the answer of [provider.getObject] that the client reads:
    [data.type] and [data.content.fields]. *)
Record SuiObject := { object_type : string; fields : PoolFields }.

(** The provider behind [this.provider]. [getObject] answers [None] when the
    answer is null or lacks [data] or [data.content]. *)
Record Provider := {
  getObject : string → throws (option SuiObject);
  getCoins : GetCoinsRequest → throws (list Coin)
}.

(** An argument of a Move call: [txb.object(id)] or [txb.pure(v)]. *)
Inductive argument :=
| tx_object (id : string)
| tx_pure (v : Js.value).

Record MoveCall := {
  target : string;
  arguments : list argument;
  typeArguments : list string
}.

Record TransactionBlock := {
  moveCalls : list MoveCall;
  gasPayment : list string
}.

Record SuiEvent := {
  event_type : string;           (* [type] *)
  pool_id : string               (* [parsedJson.pool_id] *)
}.

(** The answer of [signer.signAndExecuteTransactionBlock], asked with
    [showEffects] and [showEvents]. *)
Record TransactionResponse := {
  digest : string;
  status : string;               (* [effects.status.status] *)
  status_error : option string;  (* [effects.status.error] *)
  events : list SuiEvent
}.

Record Signer := {
  getAddress : string;
  signAndExecuteTransactionBlock : TransactionBlock → throws TransactionResponse
}.

(** [`${v}`] for an optional string. *)
Definition template (v : option string) : string := default "undefined" v.

(** ** The class [SuiLiquidityPool] *)

Section Client.

(** The source file stops inside [addLiquidity] (line 296). The methods
    [sortTokens], [priceToSqrtPriceX96], [sqrtPriceX96ToPrice],
    [getTokenMetadata] and [calculatePoolTVL] are called but lie past that
    point: what they answer is a parameter of the development, and so are
    the types of a token's metadata and of a pool's value locked. *)
Context {Metadata Tvl : Type}.

Record Helpers := {
  sortTokens : string → string → throws (string * string);
  (** The client uses the result through [toString()] only (lines 109, 153):
      the method is given with that conversion applied. *)
  priceToSqrtPriceX96 : string → throws string;
  (** Likewise (line 225). *)
  sqrtPriceX96ToPrice : string → throws string;
  getTokenMetadata : string → throws Metadata;
  calculatePoolTVL :
    string → string → string → string → string → Js.number → throws Tvl
}.

(** The object built at lines 218-231. *)
Record PoolDetails := {
  pd_id : string;
  pd_tokenX : string;
  pd_tokenY : string;
  pd_tokenXMetadata : Metadata;
  pd_tokenYMetadata : Metadata;
  pd_sqrtPriceX96 : string;
  pd_price : string;
  pd_liquidity : string;
  pd_fee : Js.number;
  pd_tickSpacing : Js.number;
  pd_currentTick : Js.number;
  pd_tvl : Tvl
}.

(** What the methods do to the world, in order. *)
Inductive effect :=
| CallGetObject (id : string)
| CallGetCoins (req : GetCoinsRequest)
| CallSignAndExecute (txb : TransactionBlock)
| ConsoleError (label : string) (error : exn).

(** The fields of the instance. [poolCache] is a [Map] keyed by pool id;
    [trace] is not a field: it records the effects so far. *)
Record SuiLiquidityPool := {
  provider : connection;
  packageId : string;
  lpRegistryId : string;
  moduleName : string;
  poolCache : gmap string PoolDetails;
  trace : list effect
}.

Definition constructor (config : Config) : SuiLiquidityPool :=
  {| provider := select_connection config;
     packageId := Js.or_default id (cfg_packageId config) DEX_PACKAGE_ID;
     lpRegistryId := Js.or_default id (cfg_lpRegistryId config) LP_REGISTRY_ID;
     moduleName := Js.or_default id (cfg_moduleName config) MODULE_NAME;
     poolCache := ∅;
     trace := [] |}.

Definition add_effect (f : effect) (this : SuiLiquidityPool) : SuiLiquidityPool :=
  {| provider := provider this; packageId := packageId this;
     lpRegistryId := lpRegistryId this; moduleName := moduleName this;
     poolCache := poolCache this; trace := trace this ++ [f] |}.

Definition cache_insert (k : string) (v : PoolDetails)
    (this : SuiLiquidityPool) : SuiLiquidityPool :=
  {| provider := provider this; packageId := packageId this;
     lpRegistryId := lpRegistryId this; moduleName := moduleName this;
     poolCache := <[k := v]> (poolCache this); trace := trace this |}.

(** *** The monad of the methods: state [this], errors [exn] *)

Definition M (A : Type) : Type :=
  SuiLiquidityPool → throws A * SuiLiquidityPool.

Definition ret {A} (a : A) : M A := λ this, (inr a, this).
Definition throw {A} (e : exn) : M A := λ this, (inl e, this).
Definition bind {A B} (m : M A) (k : A → M B) : M B :=
  λ this,
    match m this with
    | (inr a, this') => k a this'
    | (inl e, this') => (inl e, this')
    end.
(** [try { m } catch (error) { h error }] *)
Definition try_catch {A} (m : M A) (h : exn → M A) : M A :=
  λ this,
    match m this with
    | (inr a, this') => (inr a, this')
    | (inl e, this') => h e this'
    end.
Definition get_this : M SuiLiquidityPool := λ this, (inr this, this).
Definition perform (f : effect) : M unit :=
  λ this, (inr tt, add_effect f this).
(** [this.poolCache.set(k, v)] *)
Definition poolCache_set (k : string) (v : PoolDetails) : M unit :=
  λ this, (inr tt, cache_insert k v this).
(** The outcome of a call: a value, or an error thrown at this point. *)
Definition lift {A} (r : throws A) : M A :=
  match r with inr a => ret a | inl e => throw e end.
(** [await f(...)]: the call is made, then its outcome is awaited. *)
Definition call {A} (f : effect) (r : throws A) : M A :=
  bind (perform f) (λ _, lift r).
(** [await Promise.all([p, q])], both calls already made. When both fail
    the error of the first is taken (in JavaScript, the one that rejects
    first in time). *)
Definition all2 {A B} (p : throws A) (q : throws B) : M (A * B) :=
  match p, q with
  | inl e, _ => throw e
  | inr _, inl e => throw e
  | inr a, inr b => ret (a, b)
  end.

#[global] Instance M_ret : MRet M := @ret.
#[global] Instance M_bind : MBind M := λ A B k m, bind m k.

Variable H : Helpers.
Variable rpc : Provider.       (* the answers of [this.provider] *)

(** *** [getPoolDetails] (lines 171-241) *)

(** The label of the log entry (line 238) and the error thrown in its
    place (line 239). *)
Definition fetch_label (poolId : string) : string :=
  "Error fetching pool details for " +:+ poolId +:+ ":".

Definition fetch_error (error : exn) : exn :=
  Error ("Failed to fetch pool details: " +:+ message error).

Definition getPoolDetails (poolId : string) : M PoolDetails :=
  try_catch
    (this ← get_this;
     match poolCache this !! poolId with
     | Some cached => ret cached                     (* lines 174-176 *)
     | None =>
         poolObject ← call (CallGetObject poolId) (getObject rpc poolId);
         match poolObject with
         | None =>
             throw (Error ("Pool with ID " +:+ poolId +:+ " not found"))
         | Some data =>
             let pool := fields data in
             let poolType := object_type data in
             match Re.exec pool_type_pattern poolType with
             | Some [tokenX; tokenY] =>
                 let sqrtPriceX96 := sqrt_price_x96 pool in
                 let liquidity := liquidity pool in
                 let fee := (ParseInt.parseInt (fee_field pool) / 1000000)%float in
                 let tickSpacing := ParseInt.parseInt (tick_spacing pool) in
                 let currentTick := ParseInt.parseInt (current_tick pool) in
                 price ← lift (sqrtPriceX96ToPrice H sqrtPriceX96);
                 '(tokenXMetadata, tokenYMetadata) ←
                   all2 (getTokenMetadata H tokenX) (getTokenMetadata H tokenY);
                 tvl ← lift (calculatePoolTVL H poolId tokenX tokenY liquidity
                               sqrtPriceX96 currentTick);
                 let poolDetails :=
                   {| pd_id := poolId;
                      pd_tokenX := tokenX;
                      pd_tokenY := tokenY;
                      pd_tokenXMetadata := tokenXMetadata;
                      pd_tokenYMetadata := tokenYMetadata;
                      pd_sqrtPriceX96 := sqrtPriceX96;
                      pd_price := price;
                      pd_liquidity := liquidity;
                      pd_fee := fee;
                      pd_tickSpacing := tickSpacing;
                      pd_currentTick := currentTick;
                      pd_tvl := tvl |} in
                 poolCache_set poolId poolDetails;;
                 ret poolDetails
             | _ =>
                 throw (Error ("Invalid pool type format: " +:+ poolType))
             end
         end
     end)
    (λ error,
       perform (ConsoleError (fetch_label poolId) error);;
       throw (fetch_error error)).

(** *** [createPool] (lines 65-164) *)

Record CreatePoolParams := {
  coinTypeA : string;
  coinTypeB : string;
  feeTier : option string;       (* absent: ['MEDIUM'] *)
  signer : Signer;
  initialPrice : option string   (* absent: ["1.0"] *)
}.

(** The object returned at lines 144-156. The spread [...poolDetails]
    comes last, so the properties [tokenX], [tokenY], [tickSpacing], [fee],
    [sqrtPriceX96] and [liquidity] written before it are overwritten by the
    properties of the same names of [poolDetails]; what remains of the
    method's own is [transactionDigest], [poolId] and [feeTier]. *)
Record CreatedPool := {
  transactionDigest : string;
  poolId : string;
  created_feeTier : string;
  details : PoolDetails
}.

Inductive CreatePoolResult :=
| Created (pool : CreatedPool)   (* [success: true] *)
| Failed (error : string).       (* [{ success: false, error }] *)

(** Lines 88-115: the transaction block of a pool creation. *)
Definition create_pool_call (this : SuiLiquidityPool)
    (tokenX tokenY : string) (tier : tier_value) (sqrtPriceX96 : string)
    : MoveCall :=
  {| target := packageId this +:+ "::" +:+ moduleName this +:+ "::create_pool";
     arguments :=
       [ tx_object (lpRegistryId this);
         tx_pure (Js.Str tokenX);
         tx_pure (Js.Str tokenY);
         tx_pure (Js.Num (fee_ppm tier));
         tx_pure (tier_tickSpacing tier);
         tx_pure (Js.Str sqrtPriceX96) ];
     typeArguments := [tokenX; tokenY] |}.

Definition create_pool_txb (this : SuiLiquidityPool)
    (tokenX tokenY : string) (tier : tier_value) (sqrtPriceX96 : string)
    (gasObject : Coin) : TransactionBlock :=
  {| moveCalls := [create_pool_call this tokenX tokenY tier sqrtPriceX96];
     gasPayment := [coinObjectId gasObject] |}.

Definition gas_request (signer : Signer) : GetCoinsRequest :=
  {| owner := getAddress signer; coinType := None; limit := Some 1 |}.

(** [event => event.type.includes(`${this.moduleName}::PoolCreated`)] *)
Definition is_PoolCreated (this : SuiLiquidityPool) (event : SuiEvent) : bool :=
  Js.includes (moduleName this +:+ "::PoolCreated") (event_type event).

Definition createPool (params : CreatePoolParams) : M CreatePoolResult :=
  let feeTier := default "MEDIUM" (feeTier params) in
  let initialPrice := default "1.0" (initialPrice params) in
  let signer := signer params in
  try_catch
    ('(tokenX, tokenY) ← lift (sortTokens H (coinTypeA params) (coinTypeB params));
     tier ← lift (resolve_tier feeTier);
     sqrtPriceX96 ← lift (priceToSqrtPriceX96 H initialPrice);
     this ← get_this;
     coins ← call (CallGetCoins (gas_request signer))
                  (getCoins rpc (gas_request signer));
     match coins with
     | [] => throw (Error "No gas objects available for transaction")
     | gasObject :: _ =>
         let txb := create_pool_txb this tokenX tokenY tier sqrtPriceX96 gasObject in
         result ← call (CallSignAndExecute txb)
                       (signAndExecuteTransactionBlock signer txb);
         if negb (String.eqb (status result) "success") then
           throw (Error ("Transaction failed: " +:+ template (status_error result)))
         else
           match Js.find (is_PoolCreated this) (events result) with
           | None => throw (Error "Pool creation event not found in transaction")
           | Some poolCreatedEvent =>
               let poolId := pool_id poolCreatedEvent in
               poolDetails ← getPoolDetails poolId;
               ret (Created {| transactionDigest := digest result;
                               poolId := poolId;
                               created_feeTier := feeTier;
                               details := poolDetails |})
           end
     end)
    (λ error,
       perform (ConsoleError "Error creating liquidity pool:" error);;
       ret (Failed (message error))).

(** *** [addLiquidity] (lines 248-296, where the file stops) *)

Record AddLiquidityParams := {
  al_poolId : string;
  tickLower : Js.number;
  tickUpper : Js.number;
  amountX : Js.number;
  amountY : Js.number;
  al_signer : Signer;
  slippageTolerance : option Js.number   (* absent: [0.01] *)
}.

(** What the method has computed when the text breaks off, inside the
    argument list of the Move call [add_liquidity]. *)
Record AddLiquidityHead := {
  pool : PoolDetails;
  coinX : string;
  coinY : string;
  amount0Min : Js.number;
  amount1Min : Js.number;
  head_target : string;
  head_arguments : list argument   (* the first four *)
}.

Definition coins_request (signer : Signer) (type : string) : GetCoinsRequest :=
  {| owner := getAddress signer; coinType := Some type; limit := None |}.

(** [Math.floor(amount * (1 - slippageTolerance))] *)
Definition min_amount (amount slippageTolerance : Js.number) : Js.number :=
  Js.Math_floor (amount * (1 - slippageTolerance))%float.

Definition addLiquidity_head (params : AddLiquidityParams) : M AddLiquidityHead :=
  let poolId := al_poolId params in
  let signer := al_signer params in
  let slippageTolerance := default 0.01%float (slippageTolerance params) in
  pool ← getPoolDetails poolId;
  this ← get_this;
  let reqX := coins_request signer (pd_tokenX pool) in
  let reqY := coins_request signer (pd_tokenY pool) in
  perform (CallGetCoins reqX);;
  perform (CallGetCoins reqY);;
  '(coinsX, coinsY) ← all2 (getCoins rpc reqX) (getCoins rpc reqY);
  match coinsX, coinsY with
  | cX :: _, cY :: _ =>
      let coinX := coinObjectId cX in
      let coinY := coinObjectId cY in
      ret {| pool := pool;
             coinX := coinX;
             coinY := coinY;
             amount0Min := min_amount (amountX params) slippageTolerance;
             amount1Min := min_amount (amountY params) slippageTolerance;
             head_target :=
               packageId this +:+ "::" +:+ moduleName this +:+ "::add_liquidity";
             head_arguments :=
               [ tx_object poolId;
                 tx_pure (Js.Num (tickLower params));
                 tx_pure (Js.Num (tickUpper params));
                 tx_object coinX ] |}
  | _, _ => throw (Error "Insufficient coins for liquidity provision")
  end.

End Client.

(** ** The parts of the repository past the end of the source text *)

Module Spec.

(** Modelled from the spec: the error kinds of section 7, which the
    missing methods raise. The client keeps only the message of an error
    (line 161), so a kind is an [Error] whose message is its name. *)
Definition InvalidTokenPair : exn := Error "InvalidTokenPair".
Definition InvalidInput : exn := Error "InvalidInput".
Definition ArithmeticOverflow : exn := Error "ArithmeticOverflow".

(** Modelled from the spec: [sortTokens], missing from the source. Section
    4.4: pool creation canonicalizes the token order and fails with
    InvalidTokenPair if tokenX == tokenY; section 3: tokenX < tokenY under
    the canonical ordering. *)
Definition sortTokens (a b : string) : throws (string * string) :=
  if String.eqb a b then inl InvalidTokenPair
  else if String.ltb a b then inr (a, b)
  else inr (b, a).

(** Modelled from the spec: a decimal price, the argument of the missing
    [priceToSqrtPriceX96], as [± digits / 10 ^ scale]. *)
Record decimal := { negative : bool; digits : Z; scale : nat }.

(** Modelled from the spec: the digits at the head of a decimal price, for
    the missing [priceToSqrtPriceX96]; the result is their value after
    [acc], their number after [count], and what follows them. *)
Fixpoint read_digits (s : string) (acc : Z) (count : nat) : Z * nat * string :=
  match s with
  | String c rest =>
      match ParseInt.digit 10 c with
      | Some v => read_digits rest (acc * 10 + v) (S count)
      | None => (acc, count, s)
      end
  | EmptyString => (acc, count, s)
  end.

(** Modelled from the spec: the reading of a decimal price such as "1.0"
    (the default of [initialPrice]) by the missing [priceToSqrtPriceX96]: an
    optional sign, digits, and optionally a point and digits. *)
Definition parse_decimal (s : string) : option decimal :=
  let '(neg, s) := ParseInt.sign s in
  let '(i, ni, rest) := read_digits s 0 0 in
  if (ni =? 0)%nat then None
  else
    match rest with
    | EmptyString => Some {| negative := neg; digits := i; scale := 0 |}
    | String "."%char frac =>
        let '(f, nf, rest') := read_digits frac i 0 in
        if (nf =? 0)%nat then None
        else
          match rest' with
          | EmptyString => Some {| negative := neg; digits := f; scale := nf |}
          | _ => None
          end
    | _ => None
    end.

(** Modelled from the spec: the valid prices of section 4.1, [p > 0]; the
    others are zero or negative. *)
Definition positive_price (d : decimal) : bool :=
  negb (negative d) && (0 <? digits d).

(** Modelled from the spec: [priceToSqrtPriceX96], missing from the source.
    Section 4.1: the result is a Q64.96 unsigned integer, the square root
    rounded down; the conversion fails with InvalidInput for a zero or
    negative price and with ArithmeticOverflow past the representable
    width. A string that is no decimal numeral is an InvalidInput too. *)
Definition priceToSqrtPriceX96 (price : string) : throws string :=
  match parse_decimal price with
  | Some d =>
      if positive_price d then
        let r := Z.sqrt (digits d * 2 ^ 192 / 10 ^ Z.of_nat (scale d)) in
        if r <? 2 ^ 160 then inr (pretty r) else inl ArithmeticOverflow
      else inl InvalidInput
  | None => inl InvalidInput
  end.

End Spec.

(** The client with the two missing methods that decide what [createPool]
    refuses taken from [Spec]; the three others stay as they are given. *)
Definition spec_helpers {Metadata Tvl : Type} (rest : @Helpers Metadata Tvl)
    : @Helpers Metadata Tvl :=
  {| sortTokens := Spec.sortTokens;
     priceToSqrtPriceX96 := Spec.priceToSqrtPriceX96;
     sqrtPriceX96ToPrice := sqrtPriceX96ToPrice rest;
     getTokenMetadata := getTokenMetadata rest;
     calculatePoolTVL := calculatePoolTVL rest |}.

(** ** A ledger with one pool, for the concrete statements *)

Module Ledger.

Definition SUI : string := "0x2::sui::SUI".
Definition USDC : string := "0x5::usdc::USDC".

(** The missing methods: the two of [Spec], and total stand-ins for the
    three that only decorate a pool's details. *)
Definition helpers : @Helpers string unit :=
  {| sortTokens := Spec.sortTokens;
     priceToSqrtPriceX96 := Spec.priceToSqrtPriceX96;
     sqrtPriceX96ToPrice := λ _, inr "1";
     getTokenMetadata := λ type, inr type;
     calculatePoolTVL := λ _ _ _ _ _ _, inr tt |}.

Definition pool_type : string :=
  "0x123::liquidity_pool::Pool<0x2::sui::SUI, 0x5::usdc::USDC>".

Definition pool_object (liq : string) : SuiObject :=
  {| object_type := pool_type;
     fields := {| sqrt_price_x96 := "79228162514264337593543950336";
                  liquidity := liq;
                  fee_field := "3000";
                  tick_spacing := "60";
                  current_tick := "0" |} |}.

(** A provider whose ledger holds the pool ["0xpool"] with liquidity [liq]
    and gives every owner one coin of every type. *)
Definition rpc (liq : string) : Provider :=
  {| getObject := λ id,
       if String.eqb id "0xpool" then inr (Some (pool_object liq)) else inr None;
     getCoins := λ _, inr [ {| coinObjectId := "0xc0" |} ] |}.

(** A provider that holds a pool under every id. *)
Definition rpc_all : Provider :=
  {| getObject := λ _, inr (Some (pool_object "0"));
     getCoins := λ _, inr [ {| coinObjectId := "0xc0" |} ] |}.

Definition created : TransactionResponse :=
  {| digest := "D1";
     status := "success";
     status_error := None;
     events := [ {| event_type := "0x123::liquidity_pool::Swapped"; pool_id := "0xother" |};
                 {| event_type := "0x123::liquidity_pool::PoolCreated"; pool_id := "0xpool" |} ] |}.

Definition alice : Signer :=
  {| getAddress := "0xa11ce";
     signAndExecuteTransactionBlock := λ _, inr created |}.

(** A signer whose submission is rejected. *)
Definition offline : Signer :=
  {| getAddress := "0xa11ce";
     signAndExecuteTransactionBlock := λ _, inl (Error "connection refused") |}.

Definition create (tier : option string) (price : option string)
    (who : Signer) : CreatePoolParams :=
  {| coinTypeA := USDC; coinTypeB := SUI; feeTier := tier;
     signer := who; initialPrice := price |}.

Definition add (tolerance : option Js.number) : AddLiquidityParams :=
  {| al_poolId := "0xpool"; tickLower := (-600)%float; tickUpper := 600%float;
     amountX := 1000%float; amountY := 1000%float; al_signer := alice;
     slippageTolerance := tolerance |}.

Definition fresh : @SuiLiquidityPool string unit := constructor empty_config.

End Ledger.

(** [getPoolDetails] for each id of a list in turn, whatever the outcomes. *)
Definition fetch_all {Metadata Tvl : Type} (H : @Helpers Metadata Tvl)
    (rpc : Provider) (ids : list string) (this : SuiLiquidityPool)
    : SuiLiquidityPool :=
  foldl (λ this id, (getPoolDetails H rpc id this).2) this ids.

(** ** Notions that the properties are stated with *)

(** Every character of [s] satisfies [p]. *)
Fixpoint all_chars (p : Ascii.ascii → bool) (s : string) : bool :=
  match s with
  | String c rest => p c && all_chars p rest
  | EmptyString => true
  end.

(** The character [c] does not occur in [s]. *)
Definition lacks (c : Ascii.ascii) (s : string) : bool :=
  all_chars (λ x, negb (Ascii.eqb x c)) s.

(** [s] does not begin with white space. *)
Definition no_leading_space (s : string) : bool :=
  match s with
  | String c _ => negb (Js.is_space c)
  | EmptyString => true
  end.

(** The cache holds every pool under the pool's own id. *)
Definition cache_keyed {Metadata Tvl : Type}
    (this : @SuiLiquidityPool Metadata Tvl) : Prop :=
  ∀ key cached, poolCache this !! key = Some cached → pd_id cached = key.

(** What the constructor settles once and for all. *)
Definition configuration {Metadata Tvl : Type}
    (this : @SuiLiquidityPool Metadata Tvl) : connection * string * string * string :=
  (provider this, packageId this, lpRegistryId this, moduleName this).

(** The number that [parseInt] yields for the decimal numeral of an
    integer: the magnitude rounded to the nearest number, then the sign. *)
Definition number_of_int (z : Z) : Js.number :=
  if z <? 0 then PrimFloat.opp (Js.of_Z (- z)) else Js.of_Z z.

(** A decimal digit. *)
Definition is_decimal (c : Ascii.ascii) : bool :=
  match ParseInt.digit 10 c with Some _ => true | None => false end.

(** Every run of [m] leads from a state to one that is [R]-related to it. *)
Definition keeps {Metadata Tvl A : Type}
    (R : relation (@SuiLiquidityPool Metadata Tvl)) (m : M A) : Prop :=
  ∀ this, R this (m this).2.

(** The later state has the configuration and every cache entry of the
    earlier one. *)
Definition extends {Metadata Tvl : Type}
    (this this' : @SuiLiquidityPool Metadata Tvl) : Prop :=
  configuration this' = configuration this
  ∧ poolCache this ⊆ poolCache this'.

(** A keyed cache stays keyed. *)
Definition stays_keyed {Metadata Tvl : Type}
    (this this' : @SuiLiquidityPool Metadata Tvl) : Prop :=
  cache_keyed this → cache_keyed this'.

(** ** More ledgers and signers, for the concrete statements *)

Module Cases.

(** A pool of tokens one of which has a type argument. *)
Definition nested_type : string :=
  "0x1::liquidity_pool::Pool<0x2::sui::SUI, 0x2::coin::Coin<0x5::usdc::USDC>>".

(** The pool of [Ledger] with its price below one: the current tick is
    negative. *)
Definition pool_below : SuiObject :=
  {| object_type := Ledger.pool_type;
     fields := {| sqrt_price_x96 := "76884955235267387638610116608";
                  liquidity := "1000";
                  fee_field := "3000";
                  tick_spacing := "60";
                  current_tick := "-600" |} |}.

Definition rpc_below : Provider :=
  {| getObject := λ _, inr (Some pool_below);
     getCoins := λ _, inr [ {| coinObjectId := "0xc0" |} ] |}.

(** The provider of [Ledger] for an address that owns no coin. *)
Definition rpc_broke : Provider :=
  {| getObject := getObject (Ledger.rpc "0");
     getCoins := λ _, inr [] |}.

(** A provider that cannot be reached. *)
Definition rpc_down : Provider :=
  {| getObject := λ _, inl (Error "connect ETIMEDOUT");
     getCoins := λ _, inl (Error "connect ETIMEDOUT") |}.

(** A transaction that the ledger executed and aborted. *)
Definition aborted : TransactionResponse :=
  {| digest := "D2";
     status := "failure";
     status_error := Some "MoveAbort";
     events := [] |}.

Definition bob : Signer :=
  {| getAddress := "0xb0b";
     signAndExecuteTransactionBlock := λ _, inr aborted |}.

(** Liquidity with amounts whose minimums are not whole before
    [Math.floor], at a tolerance of half a percent. *)
Definition add_odd : AddLiquidityParams :=
  {| al_poolId := "0xpool"; tickLower := (-600)%float; tickUpper := 600%float;
     amountX := 1005%float; amountY := 250.5%float; al_signer := Ledger.alice;
     slippageTolerance := Some 0.005%float |}.

End Cases.

(** * Properties *)

#[local] Arguments Re.exec : simpl never.
#[local] Arguments ParseInt.parseInt : simpl never.
#[local] Arguments Js.Math_floor : simpl never.

(** Split on the outcome of the next call that can throw. *)
Ltac case_throws :=
  match goal with
  | |- context [match ?r with inl _ => _ | inr _ => _ end] =>
      let e := fresh "e" in destruct r as [e | ?] eqn:?; simpl
  end.

(** Unfold the monad down to pairs and sums. *)
Ltac run :=
  unfold mbind, mret, M_bind, M_ret, all2, call, lift, poolCache_set, perform,
    try_catch, get_this, bind, ret, throw in *;
  simpl in *.

Section GetPoolDetails.

Context {Metadata Tvl : Type}.
Variable H : @Helpers Metadata Tvl.
Variable rpc : Provider.

(** A cached pool is returned as it is; nothing else happens. *)
Lemma getPoolDetails_hit poolId this cached :
  poolCache this !! poolId = Some cached →
  getPoolDetails H rpc poolId this = (inr cached, this).
Proof. intros Hhit. unfold getPoolDetails. run. by rewrite Hhit. Qed.

(** Without a cached pool the provider is asked; the details are stored on
    success, and on failure the error is logged and wrapped. *)
Lemma getPoolDetails_miss poolId this :
  poolCache this !! poolId = None →
  (∃ d, getPoolDetails H rpc poolId this
        = (inr d, cache_insert poolId d (add_effect (CallGetObject poolId) this)))
  ∨ (∃ e, getPoolDetails H rpc poolId this
        = (inl (fetch_error e),
           add_effect (ConsoleError (fetch_label poolId) e)
             (add_effect (CallGetObject poolId) this))).
Proof.
  intros Hmiss. unfold getPoolDetails. run. rewrite Hmiss.
  destruct (getObject rpc poolId) as [e | [data |]]; simpl; [eauto | | eauto].
  destruct (Re.exec pool_type_pattern (object_type data))
    as [[| tokenX [| tokenY [| ? ?]]] |]; simpl; eauto.
  repeat (case_throws; [by eauto |]). eauto.
Qed.

(** A failure of the provider's [getObject] is the error that is wrapped. *)
Lemma getPoolDetails_fetch_failure poolId this e :
  poolCache this !! poolId = None →
  getObject rpc poolId = inl e →
  getPoolDetails H rpc poolId this
  = (inl (fetch_error e),
     add_effect (ConsoleError (fetch_label poolId) e)
       (add_effect (CallGetObject poolId) this)).
Proof.
  intros Hmiss Hfail. unfold getPoolDetails. run.
  by rewrite Hmiss, Hfail.
Qed.

Lemma getPoolDetails_cache_mono poolId this :
  poolCache this ⊆ poolCache (getPoolDetails H rpc poolId this).2.
Proof.
  destruct (poolCache this !! poolId) as [cached |] eqn:Hc.
  - by rewrite (getPoolDetails_hit _ _ _ Hc).
  - destruct (getPoolDetails_miss poolId this Hc) as [[d ->] | [e ->]]; simpl.
    + by apply insert_subseteq.
    + done.
Qed.

(** C5, as the code has it. The cache is a plain map without a bound and
    without timestamps. A lookup never evicts: every entry present before
    a call of [getPoolDetails] is present, unchanged, after it. A hit
    returns the stored entry whatever the provider would answer now and
    changes nothing. A miss that succeeds stores the new entry, and the
    cache holds one entry more; a miss that fails leaves the cache as it
    was. *)
Theorem poolCache_grows_only poolId this :
  poolCache this ⊆ poolCache (getPoolDetails H rpc poolId this).2
  ∧ match poolCache this !! poolId with
    | Some cached => getPoolDetails H rpc poolId this = (inr cached, this)
    | None =>
        match getPoolDetails H rpc poolId this with
        | (inr d, this') =>
            poolCache this' = <[poolId := d]> (poolCache this)
            ∧ size (poolCache this') = S (size (poolCache this))
        | (inl _, this') => poolCache this' = poolCache this
        end
    end.
Proof.
  split; [apply getPoolDetails_cache_mono |].
  destruct (poolCache this !! poolId) as [cached |] eqn:Hc.
  - by apply getPoolDetails_hit.
  - destruct (getPoolDetails_miss poolId this Hc) as [[d ->] | [e ->]]; simpl.
    + split; [done |]. by apply map_size_insert_None.
    + done.
Qed.


End GetPoolDetails.


Section Unbounded.

(** On the ledger that holds a pool under every id, a miss succeeds. *)
Lemma rpc_all_miss poolId (this : @SuiLiquidityPool string unit) :
  poolCache this !! poolId = None →
  ∃ d, getPoolDetails Ledger.helpers Ledger.rpc_all poolId this
       = (inr d, cache_insert poolId d (add_effect (CallGetObject poolId) this)).
Proof.
  intros Hmiss. unfold getPoolDetails. run.
  rewrite Hmiss. eauto.
Qed.

Lemma fetch_all_dom ids (this : @SuiLiquidityPool string unit) :
  dom (poolCache (fetch_all Ledger.helpers Ledger.rpc_all ids this))
  = dom (poolCache this) ∪ list_to_set ids.
Proof.
  revert this. induction ids as [| id ids IH]; intros this; simpl.
  - set_solver.
  - unfold fetch_all in *. simpl. rewrite IH.
    destruct (poolCache this !! id) as [cached |] eqn:Hc.
    + rewrite (getPoolDetails_hit _ _ _ _ _ Hc). simpl.
      apply (elem_of_dom_2 (D := gset string)) in Hc. set_solver.
    + destruct (rpc_all_miss id this Hc) as [d ->]. simpl.
      rewrite dom_insert_L. set_solver.
Qed.

End Unbounded.

(** C5, as stated, fails: no number bounds the entries of the cache. After
    [n] lookups of [n] different pools the cache holds [n] entries. *)
Lemma poolCache_exceeds_every_bound :
  ¬ ∃ maxEntries : nat,
      ∀ ids : list string,
        (size (poolCache (fetch_all Ledger.helpers Ledger.rpc_all ids Ledger.fresh))
         ≤ maxEntries)%nat.
Proof.
  intros [maxEntries Hbound].
  specialize (Hbound (pretty <$> seq 0 (S maxEntries))).
  rewrite <- size_dom, fetch_all_dom in Hbound.
  simpl poolCache in Hbound. rewrite dom_empty_L, (left_id_L ∅ (∪)) in Hbound.
  rewrite size_list_to_set in Hbound.
  - rewrite length_fmap, length_seq in Hbound. lia.
  - apply (NoDup_fmap_2 _), NoDup_seq.
Qed.

(** ** The fee tiers *)

Lemma FEE_TIERS_own name :
  name ≠ "LOW" → name ≠ "MEDIUM" → name ≠ "HIGH" → FEE_TIERS !! name = None.
Proof.
  intros ???. unfold FEE_TIERS.
  by rewrite !lookup_insert_ne, lookup_empty.
Qed.

(** The three names resolve, and line 107 turns their rates into 500, 3000
    and 10000 parts per million, in binary64 arithmetic. *)
Lemma fee_tiers_resolve :
  (∃ t, resolve_tier "LOW" = inr t
        ∧ fee_ppm t = 500%float ∧ tier_tickSpacing t = Js.Num 10)
  ∧ (∃ t, resolve_tier "MEDIUM" = inr t
          ∧ fee_ppm t = 3000%float ∧ tier_tickSpacing t = Js.Num 60)
  ∧ (∃ t, resolve_tier "HIGH" = inr t
          ∧ fee_ppm t = 10000%float ∧ tier_tickSpacing t = Js.Num 200).
Proof. repeat split; eexists; (split; [vm_compute; reflexivity |]); by split. Qed.

(** A name that is neither one of the three nor a property of
    [Object.prototype] is refused. *)
Lemma resolve_tier_refuses name :
  name ≠ "LOW" → name ≠ "MEDIUM" → name ≠ "HIGH" →
  name ∉ Object_prototype →
  resolve_tier name = inl (invalid_fee_tier name).
Proof.
  intros ??? Hproto. unfold resolve_tier, FEE_TIERS_get.
  rewrite FEE_TIERS_own by done. by rewrite bool_decide_eq_false_2.
Qed.

(** A property of [Object.prototype] passes the guard of line 80. *)
Lemma resolve_tier_inherited name :
  name ∈ Object_prototype → resolve_tier name = inr (Inherited name).
Proof.
  intros Hproto. unfold resolve_tier, FEE_TIERS_get.
  rewrite FEE_TIERS_own.
  - by rewrite bool_decide_eq_true_2.
  - intros ->. by apply (bool_decide_unpack ("LOW" ∉ Object_prototype)).
  - intros ->. by apply (bool_decide_unpack ("MEDIUM" ∉ Object_prototype)).
  - intros ->. by apply (bool_decide_unpack ("HIGH" ∉ Object_prototype)).
Qed.

(** C2, at an input where the code departs from it. The name "constructor"
    is none of the three tiers, yet [FEE_TIERS["constructor"]] is the
    inherited [Object.prototype.constructor], which is truthy: the guard of
    line 80 does not throw. [createPool] goes on with a tier that has no
    [fee] and no [tickSpacing], submits a transaction whose fee argument is
    [NaN] and whose tick spacing is [undefined], and reports success. *)
Theorem createPool_accepts_inherited_name :
  resolve_tier "constructor" = inr (Inherited "constructor")
  ∧ ∃ created this',
      createPool Ledger.helpers (Ledger.rpc "0")
        (Ledger.create (Some "constructor") None Ledger.alice) Ledger.fresh
      = (inr (Created created), this')
      ∧ created_feeTier created = "constructor"
      ∧ ∃ call,
          trace this'
          = [ CallGetCoins (gas_request Ledger.alice);
              CallSignAndExecute {| moveCalls := [call]; gasPayment := ["0xc0"] |};
              CallGetObject "0xpool" ]
          ∧ arguments call
            = [ tx_object LP_REGISTRY_ID;
                tx_pure (Js.Str Ledger.SUI);
                tx_pure (Js.Str Ledger.USDC);
                tx_pure (Js.Num nan);
                tx_pure Js.undefined;
                tx_pure (Js.Str "79228162514264337593543950336") ].
Proof.
  split; [by apply resolve_tier_inherited; apply (bool_decide_unpack _) |].
  do 2 eexists. split; [vm_compute; reflexivity |].
  split; [reflexivity |]. eexists. split; reflexivity.
Qed.

(** ** The constructor *)

(** C9, as the code has it. With the network 'devnet' or 'testnet' the
    provider is the SDK's connection of that name, whatever [rpcEndpoint]
    holds. In every other case (the network is 'mainnet', absent, empty, or a
    name the switch does not list, which falls to its [default] branch) a
    non-empty [rpcEndpoint] is the provider's endpoint, and the mainnet
    connection is used without one. *)
Theorem rpcEndpoint_override {Metadata Tvl : Type} config :
  let this := constructor (Metadata := Metadata) (Tvl := Tvl) config in
  match cfg_network config with
  | Some "devnet" => provider this = devnetConnection
  | Some "testnet" => provider this = testnetConnection
  | _ =>
      match cfg_rpcEndpoint config with
      | Some "" | None => provider this = mainnetConnection
      | Some url => provider this = Endpoint url
      end
  end.
Proof.
  unfold constructor, select_connection. simpl.
  destruct (cfg_network config) as [network |]; simpl.
  - destruct (Js.truthy_string network) eqn:Hn.
    + simpl.
      destruct (String.eqb_spec network "devnet") as [-> | Hd]; [done |].
      destruct (String.eqb_spec network "testnet") as [-> | Ht]; [done |].
      assert (provider_other :
        Js.or_default Endpoint (cfg_rpcEndpoint config) mainnetConnection
        = match cfg_rpcEndpoint config with
          | Some "" | None => mainnetConnection
          | Some url => Endpoint url
          end).
      { by destruct (cfg_rpcEndpoint config) as [[| ? ?] |]. }
      rewrite provider_other.
      repeat (match goal with
              | |- context [match ?x with _ => _ end] =>
                  is_var x; destruct x; try done
              end).
      all: by destruct (cfg_rpcEndpoint config) as [[| ? ?] |].
    + destruct network; [| done]. simpl.
      by destruct (cfg_rpcEndpoint config) as [[| ? ?] |].
  - by destruct (cfg_rpcEndpoint config) as [[| ? ?] |].
Qed.

(** C9, as stated, fails: the override also takes effect with a network that
    is neither 'mainnet' nor absent. *)
Lemma rpcEndpoint_override_on_other_network :
  let config :=
    {| cfg_network := Some "localnet";
       cfg_rpcEndpoint := Some "http://127.0.0.1:9000";
       cfg_packageId := None; cfg_lpRegistryId := None;
       cfg_moduleName := None |} in
  cfg_network config ≠ Some "mainnet"
  ∧ cfg_network config ≠ None
  ∧ provider (constructor (Metadata := unit) (Tvl := unit) config)
    = Endpoint "http://127.0.0.1:9000".
Proof. by repeat split. Qed.

(** ** [createPool] *)

Lemma find_Some {A} (p : A → bool) xs x :
  Js.find p xs = Some x →
  ∃ before after,
    xs = before ++ x :: after ∧ p x = true ∧ Forall (λ y, p y = false) before.
Proof.
  induction xs as [| y xs IH]; simpl; [done |].
  destruct (p y) eqn:Hy.
  - intros [= ->]. by exists [], xs.
  - intros Hfind. destruct (IH Hfind) as (before & after & -> & Hx & Hbefore).
    exists (y :: before), after. by repeat constructor.
Qed.

Lemma find_None {A} (p : A → bool) xs :
  Js.find p xs = None → Forall (λ y, p y = false) xs.
Proof.
  induction xs as [| y xs IH]; simpl; [by constructor |].
  destruct (p y) eqn:Hy; [done |]. intros Hfind. constructor; auto.
Qed.

Section CreatePool.

Context {Metadata Tvl : Type}.
Variable H : @Helpers Metadata Tvl.
Variable rpc : Provider.

(** [createPool] never throws: its [catch] turns every error into a
    result. *)
Lemma createPool_returns params this :
  ∃ r this', createPool H rpc params this = (inr r, this').
Proof.
  unfold createPool, try_catch.
  match goal with
  | |- context [match ?body this with _ => _ end] =>
      destruct (body this) as [[e | r] this']
  end; run; eauto.
Qed.

(** The course of [createPool] once the transaction is executed with
    success: lines 130-156, and the [catch] of lines 157-163. *)
Lemma createPool_submitted
    params this tokenX tokenY tier sqrtPriceX96 gasObject coins result :
  let txb := create_pool_txb this tokenX tokenY tier sqrtPriceX96 gasObject in
  let this1 :=
    add_effect (CallSignAndExecute txb)
      (add_effect (CallGetCoins (gas_request (signer params))) this) in
  sortTokens H (coinTypeA params) (coinTypeB params) = inr (tokenX, tokenY) →
  resolve_tier (default "MEDIUM" (feeTier params)) = inr tier →
  priceToSqrtPriceX96 H (default "1.0" (initialPrice params)) = inr sqrtPriceX96 →
  getCoins rpc (gas_request (signer params)) = inr (gasObject :: coins) →
  signAndExecuteTransactionBlock (signer params) txb = inr result →
  status result = "success" →
  createPool H rpc params this
  = match Js.find (is_PoolCreated this) (events result) with
    | Some event =>
        match getPoolDetails H rpc (pool_id event) this1 with
        | (inr poolDetails, this2) =>
            (inr (Created {| transactionDigest := digest result;
                             poolId := pool_id event;
                             created_feeTier := default "MEDIUM" (feeTier params);
                             details := poolDetails |}),
             this2)
        | (inl error, this2) =>
            (inr (Failed (message error)),
             add_effect (ConsoleError "Error creating liquidity pool:" error) this2)
        end
    | None =>
        let error := Error "Pool creation event not found in transaction" in
        (inr (Failed (message error)),
         add_effect (ConsoleError "Error creating liquidity pool:" error) this1)
    end.
Proof.
  intros txb this1 Hsort Htier Hprice Hcoins Hsign Hstatus.
  unfold createPool. run.
  rewrite Hsort. simpl. rewrite Htier. simpl. rewrite Hprice. simpl.
  rewrite Hcoins. simpl. fold txb. rewrite Hsign. simpl.
  rewrite Hstatus. simpl.
  destruct (Js.find (is_PoolCreated this) (events result)) as [event |];
    [| done].
  fold this1.
  by destruct (getPoolDetails H rpc (pool_id event) this1) as [[e | d] this2].
Qed.

(** C6. After a submission that succeeded, [createPool] takes the first
    returned event whose type contains "<moduleName>::PoolCreated" and
    reads the pool id from its [pool_id]: the details are fetched for that
    id and the result carries it. When no returned event has such a type,
    the method fails with 'Pool creation event not found in transaction'. *)
Theorem createPool_reads_PoolCreated
    params this tokenX tokenY tier sqrtPriceX96 gasObject coins result :
  let txb := create_pool_txb this tokenX tokenY tier sqrtPriceX96 gasObject in
  let this1 :=
    add_effect (CallSignAndExecute txb)
      (add_effect (CallGetCoins (gas_request (signer params))) this) in
  sortTokens H (coinTypeA params) (coinTypeB params) = inr (tokenX, tokenY) →
  resolve_tier (default "MEDIUM" (feeTier params)) = inr tier →
  priceToSqrtPriceX96 H (default "1.0" (initialPrice params)) = inr sqrtPriceX96 →
  getCoins rpc (gas_request (signer params)) = inr (gasObject :: coins) →
  signAndExecuteTransactionBlock (signer params) txb = inr result →
  status result = "success" →
  match Js.find (is_PoolCreated this) (events result) with
  | Some event =>
      (∃ before after,
         events result = before ++ event :: after
         ∧ Js.includes (moduleName this +:+ "::PoolCreated") (event_type event) = true
         ∧ Forall (λ earlier, is_PoolCreated this earlier = false) before)
      ∧ match getPoolDetails H rpc (pool_id event) this1 with
        | (inr poolDetails, this2) =>
            createPool H rpc params this
            = (inr (Created {| transactionDigest := digest result;
                               poolId := pool_id event;
                               created_feeTier := default "MEDIUM" (feeTier params);
                               details := poolDetails |}),
               this2)
        | (inl error, this2) =>
            (createPool H rpc params this).1 = inr (Failed (message error))
        end
  | None =>
      Forall (λ event, is_PoolCreated this event = false) (events result)
      ∧ (createPool H rpc params this).1
        = inr (Failed "Pool creation event not found in transaction")
  end.
Proof.
  intros txb this1 Hsort Htier Hprice Hcoins Hsign Hstatus.
  rewrite (createPool_submitted params this tokenX tokenY tier sqrtPriceX96
             gasObject coins result) by done.
  fold txb this1.
  destruct (Js.find (is_PoolCreated this) (events result)) as [event |] eqn:Hfind.
  - split.
    { destruct (find_Some _ _ _ Hfind) as (before & after & ? & ? & ?).
      by exists before, after. }
    by destruct (getPoolDetails H rpc (pool_id event) this1) as [[e | d] this2].
  - split; [by apply find_None | done].
Qed.

End CreatePool.

(** C6 on the ledger: of the two returned events the second is the pool
    creation, and its [pool_id] is the id of the result. *)
Lemma createPool_reads_PoolCreated_on_ledger :
  ∃ pool this',
    createPool Ledger.helpers (Ledger.rpc "0")
      (Ledger.create None None Ledger.alice) Ledger.fresh
    = (inr (Created pool), this')
    ∧ poolId pool = "0xpool" ∧ transactionDigest pool = "D1".
Proof.
  pose proof (createPool_reads_PoolCreated Ledger.helpers (Ledger.rpc "0")
                (Ledger.create None None Ledger.alice) Ledger.fresh
                Ledger.SUI Ledger.USDC
                (Tier {| fee := 0.003; tickSpacing := 60 |})
                "79228162514264337593543950336"
                {| coinObjectId := "0xc0" |} [] Ledger.created
                eq_refl eq_refl eq_refl eq_refl eq_refl eq_refl) as Hw.
  remember (createPool _ _ _ _) as outcome eqn:Hout in Hw |- *. clear Hout.
  vm_compute in Hw. destruct Hw as [_ ->]. by do 2 eexists.
Defined.

Section Failures.

Context {Metadata Tvl : Type}.
Variable H : @Helpers Metadata Tvl.
Variable rpc : Provider.

(** C8, as the code has it. Once the arguments of [createPool] are
    accepted, a failure of a collaborator never yields a success-shaped
    result, and it is not thrown either. [createPool] logs the error under
    'Error creating liquidity pool:' and returns normally: its result is
    [{ success: false, error }] where [error] is the message of the
    collaborator's error when [getCoins] or the submission failed, and that
    message behind 'Failed to fetch pool details: ' when the fetch of the
    new pool failed. [getPoolDetails] itself logs the provider's error under
    'Error fetching pool details for <pool id>:' and throws, not that error
    but a new one with the prefixed message. In each case the calls made
    before the failure, the log entries and the result are those stated,
    and nothing more. *)
Theorem collaborator_failure_reported
    params this tokenX tokenY tier sqrtPriceX96 :
  let txb := create_pool_txb this tokenX tokenY tier sqrtPriceX96 in
  let asked := add_effect (CallGetCoins (gas_request (signer params))) this in
  let logged error := add_effect (ConsoleError "Error creating liquidity pool:" error) in
  sortTokens H (coinTypeA params) (coinTypeB params) = inr (tokenX, tokenY) →
  resolve_tier (default "MEDIUM" (feeTier params)) = inr tier →
  priceToSqrtPriceX96 H (default "1.0" (initialPrice params)) = inr sqrtPriceX96 →
  (∃ r, (createPool H rpc params this).1 = inr r)
  ∧ (∀ e, getCoins rpc (gas_request (signer params)) = inl e →
          createPool H rpc params this
          = (inr (Failed (message e)), logged e asked))
  ∧ (∀ e gasObject coins,
       getCoins rpc (gas_request (signer params)) = inr (gasObject :: coins) →
       signAndExecuteTransactionBlock (signer params) (txb gasObject) = inl e →
       createPool H rpc params this
       = (inr (Failed (message e)),
          logged e (add_effect (CallSignAndExecute (txb gasObject)) asked)))
  ∧ (∀ e gasObject coins result event,
       getCoins rpc (gas_request (signer params)) = inr (gasObject :: coins) →
       signAndExecuteTransactionBlock (signer params) (txb gasObject) = inr result →
       status result = "success" →
       Js.find (is_PoolCreated this) (events result) = Some event →
       poolCache this !! pool_id event = None →
       getObject rpc (pool_id event) = inl e →
       let wrapped := Error ("Failed to fetch pool details: " +:+ message e) in
       createPool H rpc params this
       = (inr (Failed ("Failed to fetch pool details: " +:+ message e)),
          logged wrapped
            (add_effect
               (ConsoleError
                  ("Error fetching pool details for " +:+ pool_id event +:+ ":") e)
               (add_effect (CallGetObject (pool_id event))
                  (add_effect (CallSignAndExecute (txb gasObject)) asked)))))
  ∧ (∀ e poolId,
       poolCache this !! poolId = None →
       getObject rpc poolId = inl e →
       getPoolDetails H rpc poolId this
       = (inl (Error ("Failed to fetch pool details: " +:+ message e)),
          add_effect
            (ConsoleError ("Error fetching pool details for " +:+ poolId +:+ ":") e)
            (add_effect (CallGetObject poolId) this))).
Proof.
  intros txb asked logged Hsort Htier Hprice. subst asked logged.
  split; [| split; [| split; [| split]]].
  - destruct (createPool_returns H rpc params this) as (r & this' & ->). eauto.
  - intros e Hcoins. unfold createPool. run.
    by rewrite Hsort, Htier, Hprice, Hcoins.
  - intros e gasObject coins Hcoins Hsign. unfold createPool. run.
    rewrite Hsort. simpl. rewrite Htier. simpl. rewrite Hprice. simpl.
    rewrite Hcoins. simpl. fold (txb gasObject). by rewrite Hsign.
  - intros e gasObject coins result event Hcoins Hsign Hstatus Hfind Hmiss Hfetch.
    rewrite (createPool_submitted H rpc params this tokenX tokenY tier
               sqrtPriceX96 gasObject coins result) by done.
    rewrite Hfind.
    by rewrite (getPoolDetails_fetch_failure H rpc _ _ e).
  - intros e poolId Hmiss Hfetch.
    by rewrite (getPoolDetails_fetch_failure H rpc _ _ e).
Qed.

End Failures.

(** C8 on the ledger: the signer's submission is refused, and [createPool]
    returns the failure-shaped result with the signer's message, after one
    query for coins and the one submission, and one entry in the log. *)
Lemma collaborator_failure_reported_on_ledger :
  ∃ this' txb,
    createPool Ledger.helpers (Ledger.rpc "0")
      (Ledger.create None None Ledger.offline) Ledger.fresh
    = (inr (Failed "connection refused"), this')
    ∧ trace this'
      = [ CallGetCoins (gas_request Ledger.offline);
          CallSignAndExecute txb;
          ConsoleError "Error creating liquidity pool:"
            (Error "connection refused") ].
Proof.
  destruct (collaborator_failure_reported Ledger.helpers (Ledger.rpc "0")
              (Ledger.create None None Ledger.offline) Ledger.fresh
              Ledger.SUI Ledger.USDC
              (Tier {| fee := 0.003; tickSpacing := 60 |})
              "79228162514264337593543950336"
              eq_refl eq_refl eq_refl) as (_ & _ & Hsign & _).
  rewrite (Hsign (Error "connection refused") {| coinObjectId := "0xc0" |} []
             eq_refl eq_refl).
  by eexists _, _.
Defined.

(** C8, as stated, fails. The submission is rejected with the error
    'connection refused', a failure of an external collaborator; yet
    [createPool] does not throw: it returns normally, and what it returns
    holds the bare message, without the pool or the operation. *)
Lemma createPool_returns_after_rejection :
  let params := Ledger.create None None Ledger.offline in
  let txb :=
    create_pool_txb Ledger.fresh Ledger.SUI Ledger.USDC
      (Tier {| fee := 0.003; tickSpacing := 60 |})
      "79228162514264337593543950336" {| coinObjectId := "0xc0" |} in
  signAndExecuteTransactionBlock (signer params) txb
  = inl (Error "connection refused")
  ∧ ∃ this',
      createPool Ledger.helpers (Ledger.rpc "0") params Ledger.fresh
      = (inr (Failed "connection refused"), this')
      ∧ trace this'
        = [ CallGetCoins (gas_request Ledger.offline);
            CallSignAndExecute txb;
            ConsoleError "Error creating liquidity pool:"
              (Error "connection refused") ].
Proof.
  split; [reflexivity |]. eexists. split; vm_compute; reflexivity.
Qed.

(** ** What [createPool] refuses *)

Section Refusals.

Context {Metadata Tvl : Type}.
Variable rest : @Helpers Metadata Tvl.
Variable rpc : Provider.

(** C3, as the code orders its checks. [createPool] sorts the tokens
    first, looks up the fee tier next and converts the price last, and the
    first check that fails decides the error. With equal token types the
    result is the failure InvalidTokenPair. With different token types, a
    fee tier that resolves and a price that is zero or negative, the result
    is the failure InvalidInput. *)
Theorem createPool_refusals params this :
  let outcome := (createPool (spec_helpers rest) rpc params this).1 in
  (coinTypeA params = coinTypeB params →
   outcome = inr (Failed "InvalidTokenPair"))
  ∧ (∀ tier price,
       coinTypeA params ≠ coinTypeB params →
       resolve_tier (default "MEDIUM" (feeTier params)) = inr tier →
       Spec.parse_decimal (default "1.0" (initialPrice params)) = Some price →
       Spec.positive_price price = false →
       outcome = inr (Failed "InvalidInput")).
Proof.
  intros outcome. subst outcome. split.
  - intros Heq. unfold createPool. run. unfold Spec.sortTokens.
    rewrite Heq, String.eqb_refl. done.
  - intros tier price Hne Htier Hparse Hnonpos. unfold createPool. run.
    unfold Spec.sortTokens, Spec.priceToSqrtPriceX96.
    destruct (String.eqb_spec (coinTypeA params) (coinTypeB params)); [done |].
    rewrite Hparse, Hnonpos.
    destruct (String.ltb _ _); simpl; by rewrite Htier.
Qed.

End Refusals.

(** C3 on the ledger: two different tokens, the default tier, the price
    "-2.5". *)
Lemma createPool_refusals_on_ledger :
  (createPool (spec_helpers Ledger.helpers) (Ledger.rpc "0")
     (Ledger.create None (Some "-2.5") Ledger.alice) Ledger.fresh).1
  = inr (Failed "InvalidInput").
Proof.
  destruct (createPool_refusals Ledger.helpers (Ledger.rpc "0")
              (Ledger.create None (Some "-2.5") Ledger.alice) Ledger.fresh)
    as [_ Hprice].
  apply (Hprice (Tier {| fee := 0.003; tickSpacing := 60 |})
           {| Spec.negative := true; Spec.digits := 25; Spec.scale := 1 |});
    [by intros [=] | reflexivity ..].
Defined.

(** C3, as stated, fails. With equal token types and the price zero the
    statement asks for both InvalidTokenPair and InvalidInput, and the
    result, a single failure, is InvalidTokenPair. With different token
    types, the price zero and a fee tier that does not resolve, the result is
    the failure of the fee tier, found before the price is looked at. *)
Lemma createPool_checks_price_last :
  let equal_tokens :=
    {| coinTypeA := Ledger.SUI; coinTypeB := Ledger.SUI; feeTier := None;
       signer := Ledger.alice; initialPrice := Some "0" |} in
  let unknown_tier := Ledger.create (Some "ULTRA") (Some "0") Ledger.alice in
  let outcome params :=
    (createPool (spec_helpers Ledger.helpers) (Ledger.rpc "0") params
       Ledger.fresh).1 in
  (Spec.positive_price <$> Spec.parse_decimal "0") = Some false
  ∧ coinTypeA equal_tokens = coinTypeB equal_tokens
  ∧ outcome equal_tokens = inr (Failed "InvalidTokenPair")
  ∧ outcome equal_tokens ≠ inr (Failed "InvalidInput")
  ∧ outcome unknown_tier
    = inr (Failed "Invalid fee tier: ULTRA. Must be LOW, MEDIUM, or HIGH.").
Proof. by repeat split. Qed.

(** * Further properties of the client *)

(** ** Strings *)

Lemma take_drop k s : Js.take k s +:+ Js.drop k s = s.
Proof.
  revert k. induction s as [| c s IH]; intros [| k]; try done.
  change (String c (Js.take k s +:+ Js.drop k s) = String c s).
  by rewrite IH.
Qed.

Lemma take_app a b : Js.take (String.length a) (a +:+ b) = a.
Proof.
  induction a as [| c a IH]; [by destruct b |].
  change (String c (Js.take (String.length a) (a +:+ b)) = String c a).
  by rewrite IH.
Qed.

Lemma drop_app a b : Js.drop (String.length a) (a +:+ b) = b.
Proof. induction a as [| c a IH]; [by destruct b | exact IH]. Qed.

Lemma span_app p a b :
  all_chars p a = true →
  Js.span p (a +:+ b) = (String.length a + Js.span p b)%nat.
Proof.
  induction a as [| c a IH]; [done |].
  intros [Hc Ha]%andb_prop.
  change (Js.span p (String c (a +:+ b))
          = S (String.length a + Js.span p b)).
  simpl. by rewrite Hc, IH.
Qed.

Lemma all_chars_take p k s :
  (k ≤ Js.span p s)%nat → all_chars p (Js.take k s) = true.
Proof.
  revert k. induction s as [| c s IH]; intros [| k]; simpl; try done.
  destruct (p c); simpl; [| lia]. intros Hk. apply IH. lia.
Qed.

Lemma take_nonempty p k s :
  k ≠ 0%nat → (k ≤ Js.span p s)%nat → Js.take k s ≠ "".
Proof. destruct s, k; simpl; try done. lia. Qed.

Lemma longest_first_Some {A} (f : nat → option A) n r :
  Re.longest_first f n = Some r → ∃ k, (k ≤ n)%nat ∧ f k = Some r.
Proof.
  induction n as [| n IH]; simpl.
  - destruct (f 0%nat) eqn:Hf; [| done]. intros [= ->]. by exists 0%nat.
  - destruct (f (S n)) eqn:Hf.
    + intros [= ->]. by exists (S n).
    + intros (k & Hk & Hfk)%IH. exists k. split; [lia | done].
Qed.

Lemma longest_first_top {A} (f : nat → option A) n r :
  f n = Some r → Re.longest_first f n = Some r.
Proof. intros Hf. destruct n; simpl; by rewrite Hf. Qed.

(** ** The pattern of a pool's type (line 195) *)

Lemma exec_eq p s :
  Re.exec p s
  = match Re.match_here p s with
    | Some caps => Some caps
    | None => match s with
              | String _ rest => Re.exec p rest
              | EmptyString => None
              end
    end.
Proof. by destruct s. Qed.

Lemma exec_Some p s caps :
  Re.exec p s = Some caps →
  ∃ before rest, s = before +:+ rest ∧ Re.match_here p rest = Some caps.
Proof.
  induction s as [| c s IH]; rewrite exec_eq.
  - destruct (Re.match_here p "") eqn:Hm; [| done].
    intros [= <-]. exists "", "". by split.
  - destruct (Re.match_here p (String c s)) eqn:Hm.
    + intros [= <-]. exists "", (String c s). by split.
    + intros (before & rest & -> & Hrest)%IH.
      exists (String c before), rest. by split.
Qed.

Lemma match_here_Lit c p s caps :
  Re.match_here (Re.Lit c :: p) s = Some caps →
  ∃ rest, s = String c rest ∧ Re.match_here p rest = Some caps.
Proof.
  simpl. destruct s as [| c' rest]; [done |].
  destruct (Ascii.eqb_spec c c') as [<- |]; [| done]. by exists rest.
Qed.

Lemma match_here_GroupNot c p s caps :
  Re.match_here (Re.GroupNot c :: p) s = Some caps →
  ∃ x rest others,
    s = x +:+ rest ∧ x ≠ "" ∧ lacks c x = true
    ∧ caps = x :: others ∧ Re.match_here p rest = Some others.
Proof.
  simpl. intros (k & Hk & Hf)%longest_first_Some.
  destruct k as [| k]; [done |].
  destruct (Re.match_here p (Js.drop (S k) s)) as [others |] eqn:Hrest; [| done].
  injection Hf as <-.
  exists (Js.take (S k) s), (Js.drop (S k) s), others.
  split; [by rewrite take_drop |].
  split; [by eapply take_nonempty |].
  split; [by apply all_chars_take | done].
Qed.

Lemma match_here_Spaces p s caps :
  Re.match_here (Re.Spaces :: p) s = Some caps →
  ∃ ws rest,
    s = ws +:+ rest ∧ all_chars Js.is_space ws = true
    ∧ Re.match_here p rest = Some caps.
Proof.
  simpl. intros (k & Hk & Hf)%longest_first_Some.
  exists (Js.take k s), (Js.drop k s).
  split; [by rewrite take_drop |]. split; [by apply all_chars_take | done].
Qed.

Lemma match_here_GroupNot_complete c p x rest others :
  x ≠ "" → lacks c x = true →
  Js.span (λ ch, negb (Ascii.eqb ch c)) rest = 0%nat →
  Re.match_here p rest = Some others →
  Re.match_here (Re.GroupNot c :: p) (x +:+ rest) = Some (x :: others).
Proof.
  intros Hx Hlacks Hstop Hrest. simpl.
  rewrite span_app, Hstop, Nat.add_0_r by done.
  apply longest_first_top.
  destruct (String.length x) as [| k] eqn:Hlen; [by destruct x |].
  rewrite <- Hlen, take_app, drop_app, Hrest. done.
Qed.

Lemma match_here_Spaces_complete p ws rest caps :
  all_chars Js.is_space ws = true →
  Js.span Js.is_space rest = 0%nat →
  Re.match_here p rest = Some caps →
  Re.match_here (Re.Spaces :: p) (ws +:+ rest) = Some caps.
Proof.
  intros Hws Hstop Hrest. simpl.
  rewrite span_app, Hstop, Nat.add_0_r by done.
  apply longest_first_top. by rewrite drop_app.
Qed.

Lemma exec_skip c p before rest :
  lacks c before = true →
  Re.exec (Re.Lit c :: p) (before +:+ rest) = Re.exec (Re.Lit c :: p) rest.
Proof.
  induction before as [| c' before IH]; [done |].
  intros [Hc Hbefore]%andb_prop.
  change (Re.exec (Re.Lit c :: p) (String c' (before +:+ rest))
          = Re.exec (Re.Lit c :: p) rest).
  rewrite exec_eq. simpl. rewrite Ascii.eqb_sym.
  destruct (Ascii.eqb c' c); [done |]. by apply IH.
Qed.

(** X1. What the pattern accepts. When the type of a pool object matches,
    there are exactly two captures, the two token types, and the type reads
    [... < tokenX , white-space tokenY > ...]: [tokenX] is not empty and holds
    no comma, [tokenY] is not empty and holds no [>]. So a second token type
    that has type arguments of its own is cut at its first [>], and a first
    one with two type arguments at its comma. *)
Theorem pool_type_match_sound poolType caps :
  Re.exec pool_type_pattern poolType = Some caps →
  ∃ before tokenX ws tokenY after,
    caps = [tokenX; tokenY]
    ∧ poolType = before +:+ "<" +:+ tokenX +:+ "," +:+ ws +:+ tokenY +:+ ">" +:+ after
    ∧ tokenX ≠ "" ∧ lacks "," tokenX = true
    ∧ all_chars Js.is_space ws = true
    ∧ tokenY ≠ "" ∧ lacks ">" tokenY = true.
Proof.
  intros (before & r0 & -> & H0)%exec_Some.
  apply match_here_Lit in H0 as (r1 & -> & H1).
  apply match_here_GroupNot in H1 as (tokenX & r2 & c1 & -> & HX & HXc & -> & H2).
  apply match_here_Lit in H2 as (r3 & -> & H3).
  apply match_here_Spaces in H3 as (ws & r4 & -> & Hws & H4).
  apply match_here_GroupNot in H4 as (tokenY & r5 & c2 & -> & HY & HYc & -> & H5).
  apply match_here_Lit in H5 as (after & -> & H6).
  injection H6 as <-.
  by exists before, tokenX, ws, tokenY, after.
Qed.

(** X2. The pattern reads back a type written in the usual way. In a type
    [before<tokenX,ws tokenY>after] where [before] holds no [<], [tokenX] is
    not empty and holds no comma, [ws] is white space, and [tokenY] is not
    empty, holds no [>] and does not begin with white space, the two
    captures are [tokenX] and [tokenY], whatever follows the first [>]. *)
Theorem pool_type_match_complete before tokenX ws tokenY after :
  lacks "<" before = true →
  tokenX ≠ "" → lacks "," tokenX = true →
  all_chars Js.is_space ws = true →
  tokenY ≠ "" → lacks ">" tokenY = true → no_leading_space tokenY = true →
  Re.exec pool_type_pattern
    (before +:+ "<" +:+ tokenX +:+ "," +:+ ws +:+ tokenY +:+ ">" +:+ after)
  = Some [tokenX; tokenY].
Proof.
  intros Hbefore HX HXc Hws HY HYc HYs.
  unfold pool_type_pattern. rewrite exec_skip by done.
  assert (Hm : Re.match_here pool_type_pattern
                 ("<" +:+ tokenX +:+ "," +:+ ws +:+ tokenY +:+ ">" +:+ after)
               = Some [tokenX; tokenY]).
  { unfold pool_type_pattern.
    change (Re.match_here
              [Re.GroupNot ","; Re.Lit ","; Re.Spaces; Re.GroupNot ">"; Re.Lit ">"]
              (tokenX +:+ "," +:+ ws +:+ tokenY +:+ ">" +:+ after)
            = Some [tokenX; tokenY]).
    apply match_here_GroupNot_complete; [done .. |].
    change (Re.match_here [Re.Spaces; Re.GroupNot ">"; Re.Lit ">"]
              (ws +:+ tokenY +:+ ">" +:+ after) = Some [tokenY]).
    apply match_here_Spaces_complete; [done | |].
    - destruct tokenY as [| c tokenY]; [done |]. simpl in HYs.
      change (Js.span Js.is_space (String c (tokenY +:+ ">" +:+ after)) = 0%nat).
      simpl. by destruct (Js.is_space c).
    - by apply match_here_GroupNot_complete. }
  rewrite exec_eq. fold pool_type_pattern. by rewrite Hm.
Qed.

(** ** [parseInt] on decimal numerals (lines 205-207) *)

Lemma decimal_char c :
  is_decimal c = true →
  Js.is_space c = false
  ∧ (∀ rest, ParseInt.sign (String c rest) = (false, String c rest))
  ∧ (∀ rest, all_chars is_decimal rest = true →
             ParseInt.radix (String c rest) = (10, String c rest)).
Proof.
  intros Hc. split; [| split].
  - destruct c as [[] [] [] [] [] [] [] []]; by vm_compute in Hc |- *.
  - intros rest.
    destruct c as [[] [] [] [] [] [] [] []]; by vm_compute in Hc |- *.
  - intros [| c' rest] Hrest.
    + destruct c as [[] [] [] [] [] [] [] []]; by vm_compute in Hc |- *.
    + apply andb_prop in Hrest as [Hc' _]. unfold ParseInt.radix.
      replace (String.prefix "0x" (String c (String c' rest))) with false.
      2: { destruct c as [[] [] [] [] [] [] [] []]; try done.
           destruct c' as [[] [] [] [] [] [] [] []]; by vm_compute in Hc' |- *. }
      replace (String.prefix "0X" (String c (String c' rest))) with false.
      2: { destruct c as [[] [] [] [] [] [] [] []]; try done.
           destruct c' as [[] [] [] [] [] [] [] []]; by vm_compute in Hc' |- *. }
      done.
Qed.

Lemma digit_pretty_N_char d :
  (d < 10)%N → ParseInt.digit 10 (pretty_N_char d) = Some (Z.of_N d).
Proof.
  intros Hd.
  assert (d = 0 ∨ d = 1 ∨ d = 2 ∨ d = 3 ∨ d = 4 ∨ d = 5 ∨ d = 6 ∨ d = 7
          ∨ d = 8 ∨ d = 9)%N as Hcases by lia.
  by repeat destruct Hcases as [-> | Hcases]; [.. | subst d].
Qed.

(** The numeral of a positive [x] put before [s] begins with a digit, and
    reading it on from [a] gives [a] shifted by its digits, plus [x]. *)
Lemma digits_pretty_N_go x :
  (0 < x)%N →
  ∀ s,
    (∃ c rest, pretty_N_go x s = String c rest ∧ is_decimal c = true
               ∧ (all_chars is_decimal s = true → all_chars is_decimal rest = true))
    ∧ ∃ k : nat, ∀ a,
        ParseInt.digits 10 (Some a) (pretty_N_go x s)
        = ParseInt.digits 10 (Some (a * 10 ^ Z.of_nat k + Z.of_N x)) s.
Proof.
  induction (N.lt_wf_0 x) as [x _ IH]. intros Hx s.
  rewrite pretty_N_go_step by done.
  pose proof (N.mod_lt x 10 ltac:(done)) as Hmod.
  pose proof (digit_pretty_N_char _ Hmod) as Hdigit.
  assert (Hdec : is_decimal (pretty_N_char (x `mod` 10)) = true).
  { unfold is_decimal. by rewrite Hdigit. }
  assert (Hstep : ∀ a,
    ParseInt.digits 10 (Some a) (String (pretty_N_char (x `mod` 10)) s)
    = ParseInt.digits 10 (Some (a * 10 + Z.of_N (x `mod` 10))) s).
  { intros a. simpl. by rewrite Hdigit. }
  pose proof (N.div_mod x 10 ltac:(done)) as Hx10.
  destruct (decide (x `div` 10 = 0)%N) as [Hsmall | Hbig].
  - rewrite Hsmall, pretty_N_go_0. split.
    + by eexists _, _.
    + exists 1%nat. intros a. rewrite Hstep. do 2 f_equal. lia.
  - destruct (IH (x `div` 10)%N) with (s := String (pretty_N_char (x `mod` 10)) s)
      as [(c & rest & Heq & Hc & Hrest) [k Hk]].
    { by apply N.div_lt. }
    { lia. }
    split.
    + exists c, rest. split; [done |]. split; [done |].
      intros Hs. apply Hrest. simpl. by rewrite Hdec.
    + exists (S k). intros a. rewrite Hk, Hstep. do 2 f_equal.
      rewrite Nat2Z.inj_succ, Z.pow_succ_r by lia. lia.
Qed.

(** [parseInt] reads the decimal numeral of an integer back. *)
Lemma parseInt_pretty (z : Z) : ParseInt.parseInt (pretty z) = number_of_int z.
Proof.
  assert (Hpos : ∀ p : positive,
    ∃ c rest, pretty (Npos p) = String c rest ∧ is_decimal c = true
              ∧ all_chars is_decimal rest = true
              ∧ ParseInt.digits 10 None (String c rest) = Some (Z.pos p)).
  { intros p. unfold pretty, pretty_N. rewrite decide_False by done.
    destruct (digits_pretty_N_go (Npos p) ltac:(done) "")
      as [(c & rest & Heq & Hc & Hrest) [k Hk]].
    exists c, rest. split; [done |]. split; [done |]. split; [by apply Hrest |].
    rewrite <- Heq.
    assert (Hnone : ParseInt.digits 10 None (pretty_N_go (N.pos p) "")
                    = ParseInt.digits 10 (Some 0) (pretty_N_go (N.pos p) "")).
    { rewrite Heq.
      change (match ParseInt.digit 10 c with
              | Some v => ParseInt.digits 10 (Some (0 * 10 + v)) rest
              | None => None
              end
              = match ParseInt.digit 10 c with
                | Some v => ParseInt.digits 10 (Some (0 * 10 + v)) rest
                | None => Some 0
                end).
      unfold is_decimal in Hc. by destruct (ParseInt.digit 10 c). }
    rewrite Hnone, Hk. simpl. f_equal; lia. }
  unfold ParseInt.parseInt, number_of_int.
  destruct z as [| p | p].
  - done.
  - destruct (Hpos p) as (c & rest & Heq & Hc & Hrest & Hdigits).
    change (pretty (Z.pos p)) with (pretty (Npos p)). rewrite Heq.
    destruct (decimal_char c Hc) as (Hspace & Hsign & Hradix).
    simpl Js.span. rewrite Hspace. simpl Js.drop.
    by rewrite Hsign, Hradix, Hdigits.
  - destruct (Hpos p) as (c & rest & Heq & Hc & Hrest & Hdigits).
    change (pretty (Z.neg p)) with (String "-" (pretty (Npos p))). rewrite Heq.
    destruct (decimal_char c Hc) as (Hspace & Hsign & Hradix).
    change (Js.drop _ (String "-" (String c rest))) with (String "-" (String c rest)).
    change (ParseInt.sign (String "-" (String c rest))) with (true, String c rest).
    cbv beta iota. by rewrite Hradix, Hdigits.
Qed.

(** ** [getPoolDetails] (lines 171-241) *)

Section Lookup.

Context {Metadata Tvl : Type}.
Variable H : @Helpers Metadata Tvl.
Variable rpc : Provider.

(** A call that succeeds without a cached pool has gone through every step
    of lines 179-234. *)
Lemma getPoolDetails_fresh poolId this d this' :
  poolCache this !! poolId = None →
  getPoolDetails H rpc poolId this = (inr d, this') →
  ∃ data tokenX tokenY,
    getObject rpc poolId = inr (Some data)
    ∧ Re.exec pool_type_pattern (object_type data) = Some [tokenX; tokenY]
    ∧ sqrtPriceX96ToPrice H (sqrt_price_x96 (fields data)) = inr (pd_price d)
    ∧ getTokenMetadata H tokenX = inr (pd_tokenXMetadata d)
    ∧ getTokenMetadata H tokenY = inr (pd_tokenYMetadata d)
    ∧ calculatePoolTVL H poolId tokenX tokenY (liquidity (fields data))
        (sqrt_price_x96 (fields data))
        (ParseInt.parseInt (current_tick (fields data)))
      = inr (pd_tvl d)
    ∧ d = {| pd_id := poolId;
             pd_tokenX := tokenX;
             pd_tokenY := tokenY;
             pd_tokenXMetadata := pd_tokenXMetadata d;
             pd_tokenYMetadata := pd_tokenYMetadata d;
             pd_sqrtPriceX96 := sqrt_price_x96 (fields data);
             pd_price := pd_price d;
             pd_liquidity := liquidity (fields data);
             pd_fee := (ParseInt.parseInt (fee_field (fields data)) / 1000000)%float;
             pd_tickSpacing := ParseInt.parseInt (tick_spacing (fields data));
             pd_currentTick := ParseInt.parseInt (current_tick (fields data));
             pd_tvl := pd_tvl d |}
    ∧ this' = cache_insert poolId d (add_effect (CallGetObject poolId) this).
Proof.
  intros Hmiss. unfold getPoolDetails. run. rewrite Hmiss.
  destruct (getObject rpc poolId) as [e | [data |]]; simpl; [done | | done].
  destruct (Re.exec pool_type_pattern (object_type data))
    as [[| tokenX [| tokenY [| ? ?]]] |] eqn:Hexec; simpl; try done.
  repeat (case_throws; [done |]).
  intros [= <- <-]. exists data, tokenX, tokenY. by repeat split.
Qed.

(** A call that succeeds leaves the pool in the cache, under its id. *)
Lemma getPoolDetails_cached poolId this d this' :
  getPoolDetails H rpc poolId this = (inr d, this') →
  poolCache this' !! poolId = Some d.
Proof.
  destruct (poolCache this !! poolId) as [cached |] eqn:Hc.
  - rewrite (getPoolDetails_hit _ _ _ _ _ Hc). by intros [= <- <-].
  - destruct (getPoolDetails_miss H rpc poolId this Hc) as [[d' ->] | [e ->]];
      [| done].
    intros [= <- <-]. simpl. by rewrite lookup_insert_eq.
Qed.

(** X3. What a fetched pool's details hold. When the pool is not cached and
    the ledger sends its fee, tick spacing and current tick as the decimal
    numerals of the integers [feePpm], [spacing] and [tick], a call that
    succeeds yields the fee [feePpm / 1000000], the tick spacing and the
    current tick as numbers (a negative tick keeps its sign), the requested
    id as [id], and the square-root price and the liquidity as the very
    strings that the ledger sent. *)
Theorem getPoolDetails_reads_fields poolId this data feePpm spacing tick d this' :
  poolCache this !! poolId = None →
  getObject rpc poolId = inr (Some data) →
  fee_field (fields data) = pretty feePpm →
  tick_spacing (fields data) = pretty spacing →
  current_tick (fields data) = pretty tick →
  getPoolDetails H rpc poolId this = (inr d, this') →
  pd_id d = poolId
  ∧ pd_fee d = (number_of_int feePpm / 1000000)%float
  ∧ pd_tickSpacing d = number_of_int spacing
  ∧ pd_currentTick d = number_of_int tick
  ∧ pd_sqrtPriceX96 d = sqrt_price_x96 (fields data)
  ∧ pd_liquidity d = liquidity (fields data).
Proof.
  intros Hmiss Hobject Hfee Hspacing Htick Hcall.
  destruct (getPoolDetails_fresh _ _ _ _ Hmiss Hcall)
    as (data' & tokenX & tokenY & Hobject' & _ & _ & _ & _ & _ & -> & _).
  rewrite Hobject in Hobject'. injection Hobject' as <-. simpl.
  by rewrite Hfee, Hspacing, Htick, !parseInt_pretty.
Qed.

(** X4. A pool is fetched once. After a call that succeeded, a second call
    for the same id returns the same details and changes nothing: it makes no
    call at all, whatever the provider and the helper methods would answer
    by then. *)
Theorem getPoolDetails_repeat
    (H' : @Helpers Metadata Tvl) (rpc' : Provider) poolId this d this' :
  getPoolDetails H rpc poolId this = (inr d, this') →
  getPoolDetails H' rpc' poolId this' = (inr d, this').
Proof.
  intros Hcall. apply getPoolDetails_hit. by eapply getPoolDetails_cached.
Qed.

(** X5. A call touches one entry at most. Whatever its outcome,
    [getPoolDetails] leaves the cached details of every other pool, and the
    configuration of the instance, as they were. *)
Theorem getPoolDetails_frame poolId other this :
  other ≠ poolId →
  let this' := (getPoolDetails H rpc poolId this).2 in
  poolCache this' !! other = poolCache this !! other
  ∧ configuration this' = configuration this.
Proof.
  intros Hother.
  destruct (poolCache this !! poolId) as [cached |] eqn:Hc.
  - by rewrite (getPoolDetails_hit _ _ _ _ _ Hc).
  - destruct (getPoolDetails_miss H rpc poolId this Hc) as [[d ->] | [e ->]];
      simpl; [| done].
    by rewrite lookup_insert_ne.
Qed.

(** X6. A failure is not cached. When [getPoolDetails] throws, the pool was
    not in the cache and the cache is as before, so the next call asks the
    provider again; the provider was asked exactly once; the error thrown is
    a new one, 'Failed to fetch pool details: ' followed by the message of
    the cause; and the cause was logged under a label that names the pool. *)
Theorem getPoolDetails_failure poolId this error this' :
  getPoolDetails H rpc poolId this = (inl error, this') →
  poolCache this !! poolId = None
  ∧ poolCache this' = poolCache this
  ∧ ∃ cause,
      error = Error ("Failed to fetch pool details: " +:+ message cause)
      ∧ trace this'
        = trace this
          ++ [ CallGetObject poolId;
               ConsoleError ("Error fetching pool details for " +:+ poolId +:+ ":")
                 cause ].
Proof.
  destruct (poolCache this !! poolId) as [cached |] eqn:Hc.
  - by rewrite (getPoolDetails_hit _ _ _ _ _ Hc).
  - destruct (getPoolDetails_miss H rpc poolId this Hc) as [[d ->] | [e ->]];
      [done |].
    intros [= <- <-]. split; [done |]. split; [done |].
    exists e. split; [done |]. simpl. by rewrite <- (assoc_L (++)).
Qed.

(** X7. The two refusals of [getPoolDetails] itself. Without a cached pool:
    when the provider's answer is null or lacks [data] or [data.content], the
    error is 'Pool with ID ... not found'; when the type of the object does
    not match the pattern, it is 'Invalid pool type format: ...' with the
    type. In both cases the error reaches the caller behind 'Failed to fetch
    pool details: ' and nothing is cached. *)
Theorem getPoolDetails_refusals poolId this :
  poolCache this !! poolId = None →
  let outcome := getPoolDetails H rpc poolId this in
  (getObject rpc poolId = inr None →
   outcome.1
   = inl (Error ("Failed to fetch pool details: Pool with ID "
                 +:+ poolId +:+ " not found"))
   ∧ poolCache outcome.2 = poolCache this)
  ∧ (∀ data,
       getObject rpc poolId = inr (Some data) →
       Re.exec pool_type_pattern (object_type data) = None →
       outcome.1
       = inl (Error ("Failed to fetch pool details: Invalid pool type format: "
                     +:+ object_type data))
       ∧ poolCache outcome.2 = poolCache this).
Proof.
  intros Hmiss outcome. subst outcome. split.
  - intros Hnone. unfold getPoolDetails. run. by rewrite Hmiss, Hnone.
  - intros data Hdata Hexec. unfold getPoolDetails. run.
    by rewrite Hmiss, Hdata, Hexec.
Qed.

End Lookup.

(** ** What every method keeps *)

Section Keeps.

#[local] Set Default Proof Using "All".

Context {Metadata Tvl : Type}.
Variable R : relation (@SuiLiquidityPool Metadata Tvl).
Context `{!PreOrder R}.
Hypothesis R_effect : ∀ f this, R this (add_effect f this).

Lemma keeps_ret {A} (a : A) : keeps R (ret a).
Proof. intros this. simpl. reflexivity. Qed.

Lemma keeps_throw {A} e : keeps R (throw (A := A) e).
Proof. intros this. simpl. reflexivity. Qed.

Lemma keeps_lift {A} (r : throws A) : keeps R (lift r).
Proof. destruct r; [apply keeps_throw | apply keeps_ret]. Qed.

Lemma keeps_get_this : keeps R get_this.
Proof. intros this. simpl. reflexivity. Qed.

Lemma keeps_perform f : keeps R (perform f).
Proof. intros this. apply R_effect. Qed.

Lemma keeps_bind {A B} (m : M A) (k : A → M B) :
  keeps R m → (∀ a, keeps R (k a)) → keeps R (m ≫= k).
Proof.
  intros Hm Hk this. unfold mbind, M_bind, bind.
  specialize (Hm this). destruct (m this) as [[e | a] this1]; simpl in *; [done |].
  etrans; [done | apply Hk].
Qed.

Lemma keeps_try_catch {A} (m : M A) (h : exn → M A) :
  keeps R m → (∀ e, keeps R (h e)) → keeps R (try_catch m h).
Proof.
  intros Hm Hh this. unfold try_catch.
  specialize (Hm this). destruct (m this) as [[e | a] this1]; simpl in *; [| done].
  etrans; [done | apply Hh].
Qed.

Lemma keeps_call {A} f (r : throws A) : keeps R (call f r).
Proof. apply keeps_bind; [apply keeps_perform | intros _; apply keeps_lift]. Qed.

Lemma keeps_all2 {A B} (p : throws A) (q : throws B) : keeps R (all2 p q).
Proof.
  destruct p, q; simpl; first [apply keeps_throw | apply keeps_ret].
Qed.

Variable H : @Helpers Metadata Tvl.
Variable rpc : Provider.
Hypothesis R_getPoolDetails : ∀ poolId, keeps R (getPoolDetails H rpc poolId).

Lemma keeps_createPool params : keeps R (createPool H rpc params).
Proof.
  unfold createPool. apply keeps_try_catch.
  - apply keeps_bind; [apply keeps_lift |]. intros [tokenX tokenY].
    apply keeps_bind; [apply keeps_lift |]. intros tier.
    apply keeps_bind; [apply keeps_lift |]. intros sqrtPriceX96.
    apply keeps_bind; [apply keeps_get_this |]. intros this.
    apply keeps_bind; [apply keeps_call |]. intros [| gasObject coins];
      [apply keeps_throw |].
    apply keeps_bind; [apply keeps_call |]. intros result.
    destruct (negb _); [apply keeps_throw |].
    destruct (Js.find _ _) as [event |]; [| apply keeps_throw].
    apply keeps_bind; [apply R_getPoolDetails |]. intros poolDetails.
    apply keeps_ret.
  - intros e. apply keeps_bind; [apply keeps_perform |]. intros _.
    apply keeps_ret.
Qed.

Lemma keeps_addLiquidity_head params : keeps R (addLiquidity_head H rpc params).
Proof.
  unfold addLiquidity_head.
  apply keeps_bind; [apply R_getPoolDetails |]. intros pool.
  apply keeps_bind; [apply keeps_get_this |]. intros this.
  apply keeps_bind; [apply keeps_perform |]. intros _.
  apply keeps_bind; [apply keeps_perform |]. intros _.
  apply keeps_bind; [apply keeps_all2 |]. intros [[| cX ?] [| cY ?]];
    first [apply keeps_throw | apply keeps_ret].
Qed.

End Keeps.

Section Invariants.

Context {Metadata Tvl : Type}.
Variable H : @Helpers Metadata Tvl.
Variable rpc : Provider.

#[local] Instance extends_preorder : PreOrder (@extends Metadata Tvl).
Proof.
  split.
  - by intros this.
  - intros a b c [Hab1 Hab2] [Hbc1 Hbc2]. split; [congruence | by etrans].
Qed.

#[local] Instance stays_keyed_preorder : PreOrder (@stays_keyed Metadata Tvl).
Proof. split; unfold stays_keyed; [by intros this | by intros a b c ???; auto]. Qed.

Lemma add_effect_extends f (this : @SuiLiquidityPool Metadata Tvl) :
  extends this (add_effect f this).
Proof. by split. Qed.

Lemma getPoolDetails_extends poolId : keeps extends (getPoolDetails H rpc poolId).
Proof.
  intros this. split; [| apply getPoolDetails_cache_mono].
  destruct (poolCache this !! poolId) as [cached |] eqn:Hc.
  - by rewrite (getPoolDetails_hit _ _ _ _ _ Hc).
  - by destruct (getPoolDetails_miss H rpc poolId this Hc) as [[d ->] | [e ->]].
Qed.

Lemma getPoolDetails_stays_keyed poolId :
  keeps stays_keyed (getPoolDetails H rpc poolId).
Proof.
  intros this Hkeyed.
  destruct (poolCache this !! poolId) as [hit |] eqn:Hc.
  - by rewrite (getPoolDetails_hit _ _ _ _ _ Hc).
  - destruct (getPoolDetails_miss H rpc poolId this Hc) as [[d Hd] | [e ->]];
      [| done].
    destruct (getPoolDetails_fresh H rpc _ _ _ _ Hc Hd)
      as (data & tokenX & tokenY & _ & _ & _ & _ & _ & _ & Hid & _).
    rewrite Hd. intros key cached. simpl.
    destruct (decide (poolId = key)) as [<- | Hne].
    + rewrite lookup_insert_eq. intros [= <-]. by rewrite Hid.
    + rewrite lookup_insert_ne by done. apply Hkeyed.
Qed.

(** X8. Every pool is cached under its own id. The constructor starts
    with such a cache (an empty one), and [getPoolDetails], [createPool] and
    [addLiquidity] keep it so, whatever their outcome. With such a cache the
    details that [getPoolDetails] returns for an id carry that id, from the
    cache or from the provider. *)
Theorem cache_stays_keyed this :
  cache_keyed this →
  (∀ poolId, cache_keyed (getPoolDetails H rpc poolId this).2)
  ∧ (∀ params, cache_keyed (createPool H rpc params this).2)
  ∧ (∀ params, cache_keyed (addLiquidity_head H rpc params this).2)
  ∧ (∀ poolId d this',
       getPoolDetails H rpc poolId this = (inr d, this') → pd_id d = poolId).
Proof.
  intros Hkeyed.
  split; [| split; [| split]].
  - intros poolId. by apply getPoolDetails_stays_keyed.
  - intros params.
    by apply (keeps_createPool stays_keyed (λ f this0 Hk, Hk) H rpc
                getPoolDetails_stays_keyed).
  - intros params.
    by apply (keeps_addLiquidity_head stays_keyed (λ f this0 Hk, Hk) H rpc
                getPoolDetails_stays_keyed).
  - intros poolId d this' Hcall.
    pose proof (getPoolDetails_stays_keyed poolId this Hkeyed) as Hkeyed'.
    rewrite Hcall in Hkeyed'. apply Hkeyed'. by eapply getPoolDetails_cached.
Qed.

(** X9. No method forgets a pool or reconfigures the client. After
    [createPool] and after [addLiquidity], whatever their outcome, the
    connection, the package id, the registry id and the module name are
    those before the call, and every pool that was cached is still cached
    with the same details. *)
Theorem methods_extend this :
  (∀ params, extends this (createPool H rpc params this).2)
  ∧ (∀ params, extends this (addLiquidity_head H rpc params this).2).
Proof.
  split; intros params.
  - exact (keeps_createPool extends add_effect_extends H rpc
             getPoolDetails_extends params this).
  - exact (keeps_addLiquidity_head extends add_effect_extends H rpc
             getPoolDetails_extends params this).
Qed.

End Invariants.

Lemma constructor_keyed {Metadata Tvl : Type} config :
  cache_keyed (constructor (Metadata := Metadata) (Tvl := Tvl) config).
Proof. intros key cached. simpl. by rewrite lookup_empty. Qed.

(** ** How [createPool] ends (lines 65-164) *)

Section Outcomes.

Context {Metadata Tvl : Type}.
Variable H : @Helpers Metadata Tvl.
Variable rpc : Provider.

(** An argument that is refused ends the method at once. *)
Lemma createPool_stops params this error :
  sortTokens H (coinTypeA params) (coinTypeB params) = inl error
  ∨ (∃ tokens,
       sortTokens H (coinTypeA params) (coinTypeB params) = inr tokens
       ∧ resolve_tier (default "MEDIUM" (feeTier params)) = inl error)
  ∨ (∃ tokens tier,
       sortTokens H (coinTypeA params) (coinTypeB params) = inr tokens
       ∧ resolve_tier (default "MEDIUM" (feeTier params)) = inr tier
       ∧ priceToSqrtPriceX96 H (default "1.0" (initialPrice params)) = inl error) →
  createPool H rpc params this
  = (inr (Failed (message error)),
     add_effect (ConsoleError "Error creating liquidity pool:" error) this).
Proof.
  intros [Hsort | [([tokenX tokenY] & Hsort & Htier)
                  | ([tokenX tokenY] & tier & Hsort & Htier & Hprice)]];
    unfold createPool; run; rewrite Hsort; simpl; [done | |].
  - by rewrite Htier.
  - rewrite Htier. simpl. by rewrite Hprice.
Qed.

(** X10. A refused argument costs no call. When the tokens cannot be
    sorted, or the fee tier does not resolve, or the price cannot be
    converted, [createPool] returns the failure with the message of that
    error, having logged it and done nothing else: no query for coins, no
    transaction, no change of the cache. *)
Theorem createPool_rejects_before_any_call params this :
  let rejected error :=
    createPool H rpc params this
    = (inr (Failed (message error)),
       add_effect (ConsoleError "Error creating liquidity pool:" error) this) in
  (∀ error,
     sortTokens H (coinTypeA params) (coinTypeB params) = inl error →
     rejected error)
  ∧ (∀ tokens error,
       sortTokens H (coinTypeA params) (coinTypeB params) = inr tokens →
       resolve_tier (default "MEDIUM" (feeTier params)) = inl error →
       rejected error)
  ∧ (∀ tokens tier error,
       sortTokens H (coinTypeA params) (coinTypeB params) = inr tokens →
       resolve_tier (default "MEDIUM" (feeTier params)) = inr tier →
       priceToSqrtPriceX96 H (default "1.0" (initialPrice params)) = inl error →
       rejected error).
Proof.
  intros rejected. subst rejected. repeat split; intros; apply createPool_stops.
  - by left.
  - right. left. by eexists.
  - right. right. by eexists _, _.
Qed.

(** X11. A fee tier that is given must be one of the table. For a name
    that is none of LOW, MEDIUM and HIGH and no property of
    [Object.prototype] (the empty name and names in small letters are such
    names), and tokens that sort, [createPool] returns the failure
    'Invalid fee tier: <name>. Must be LOW, MEDIUM, or HIGH.' before any
    call. *)
Theorem createPool_refuses_unknown_tier params this name tokens :
  feeTier params = Some name →
  name ≠ "LOW" → name ≠ "MEDIUM" → name ≠ "HIGH" →
  name ∉ Object_prototype →
  sortTokens H (coinTypeA params) (coinTypeB params) = inr tokens →
  createPool H rpc params this
  = (inr (Failed ("Invalid fee tier: " +:+ name +:+ ". Must be LOW, MEDIUM, or HIGH.")),
     add_effect
       (ConsoleError "Error creating liquidity pool:"
          (Error ("Invalid fee tier: " +:+ name +:+ ". Must be LOW, MEDIUM, or HIGH.")))
       this).
Proof.
  intros Hname ??? Hproto Hsort.
  apply (createPool_stops params this (invalid_fee_tier name)).
  right. left. exists tokens. split; [done |].
  rewrite Hname. simpl. by apply resolve_tier_refuses.
Qed.

(** X12. Without a coin there is no transaction. When the arguments are
    accepted and the signer's address owns no coin (the answer of [getCoins]
    is empty), [createPool] returns the failure 'No gas objects available
    for transaction': the coins were asked for once, with the limit 1, and
    nothing was submitted. *)
Theorem createPool_without_gas params this tokens tier sqrtPriceX96 :
  sortTokens H (coinTypeA params) (coinTypeB params) = inr tokens →
  resolve_tier (default "MEDIUM" (feeTier params)) = inr tier →
  priceToSqrtPriceX96 H (default "1.0" (initialPrice params)) = inr sqrtPriceX96 →
  getCoins rpc (gas_request (signer params)) = inr [] →
  ∃ this',
    createPool H rpc params this
    = (inr (Failed "No gas objects available for transaction"), this')
    ∧ trace this'
      = trace this
        ++ [ CallGetCoins {| owner := getAddress (signer params);
                             coinType := None; limit := Some 1 |};
             ConsoleError "Error creating liquidity pool:"
               (Error "No gas objects available for transaction") ]
    ∧ poolCache this' = poolCache this.
Proof.
  intros Hsort Htier Hprice Hcoins. destruct tokens as [tokenX tokenY].
  eexists. split; [| split].
  - unfold createPool. run.
    rewrite Hsort. simpl. rewrite Htier. simpl. rewrite Hprice. simpl.
    rewrite Hcoins. simpl. reflexivity.
  - simpl. by rewrite <- (assoc_L (++)).
  - done.
Qed.

(** X13. A transaction that did not succeed creates nothing. When the
    transaction is executed with a status other than 'success',
    [createPool] returns the failure 'Transaction failed: ' followed by the
    error of the status ('undefined' when the status has none); it looks for
    no event, fetches no pool and leaves the cache as it was. *)
Theorem createPool_transaction_failed
    params this tokenX tokenY tier sqrtPriceX96 gasObject coins result :
  let txb := create_pool_txb this tokenX tokenY tier sqrtPriceX96 gasObject in
  sortTokens H (coinTypeA params) (coinTypeB params) = inr (tokenX, tokenY) →
  resolve_tier (default "MEDIUM" (feeTier params)) = inr tier →
  priceToSqrtPriceX96 H (default "1.0" (initialPrice params)) = inr sqrtPriceX96 →
  getCoins rpc (gas_request (signer params)) = inr (gasObject :: coins) →
  signAndExecuteTransactionBlock (signer params) txb = inr result →
  status result ≠ "success" →
  ∃ this',
    createPool H rpc params this
    = (inr (Failed ("Transaction failed: "
                    +:+ default "undefined" (status_error result))),
       this')
    ∧ trace this'
      = trace this
        ++ [ CallGetCoins (gas_request (signer params));
             CallSignAndExecute txb;
             ConsoleError "Error creating liquidity pool:"
               (Error ("Transaction failed: "
                       +:+ default "undefined" (status_error result))) ]
    ∧ poolCache this' = poolCache this.
Proof.
  intros txb Hsort Htier Hprice Hcoins Hsign Hstatus.
  eexists. split; [| split].
  - unfold createPool. run.
    rewrite Hsort. simpl. rewrite Htier. simpl. rewrite Hprice. simpl.
    rewrite Hcoins. simpl. fold txb. rewrite Hsign. simpl.
    destruct (String.eqb_spec (status result) "success") as [| _]; [done |].
    simpl. reflexivity.
  - simpl. by rewrite <- !(assoc_L (++)).
  - done.
Qed.

(** The steps behind a success. *)
Lemma createPool_Created params this pool this' :
  createPool H rpc params this = (inr (Created pool), this') →
  ∃ tokenX tokenY tier sqrtPriceX96 gasObject coins result event,
    let txb := create_pool_txb this tokenX tokenY tier sqrtPriceX96 gasObject in
    let this1 :=
      add_effect (CallSignAndExecute txb)
        (add_effect (CallGetCoins (gas_request (signer params))) this) in
    sortTokens H (coinTypeA params) (coinTypeB params) = inr (tokenX, tokenY)
    ∧ resolve_tier (default "MEDIUM" (feeTier params)) = inr tier
    ∧ priceToSqrtPriceX96 H (default "1.0" (initialPrice params)) = inr sqrtPriceX96
    ∧ getCoins rpc (gas_request (signer params)) = inr (gasObject :: coins)
    ∧ signAndExecuteTransactionBlock (signer params) txb = inr result
    ∧ status result = "success"
    ∧ Js.find (is_PoolCreated this) (events result) = Some event
    ∧ getPoolDetails H rpc (pool_id event) this1 = (inr (details pool), this')
    ∧ pool = {| transactionDigest := digest result;
                poolId := pool_id event;
                created_feeTier := default "MEDIUM" (feeTier params);
                details := details pool |}.
Proof.
  unfold createPool. run.
  destruct (sortTokens H _ _) as [e | [tokenX tokenY]] eqn:Hsort; simpl; [done |].
  destruct (resolve_tier _) as [e | tier] eqn:Htier; simpl; [done |].
  destruct (priceToSqrtPriceX96 H _) as [e | sqrtPriceX96] eqn:Hprice; simpl;
    [done |].
  destruct (getCoins rpc _) as [e | [| gasObject coins]] eqn:Hcoins; simpl;
    [done .. |].
  destruct (signAndExecuteTransactionBlock _ _) as [e | result] eqn:Hsign; simpl;
    [done |].
  destruct (String.eqb_spec (status result) "success") as [Hstatus |]; simpl;
    [| done].
  destruct (Js.find _ _) as [event |] eqn:Hfind; simpl; [| done].
  destruct (getPoolDetails H rpc (pool_id event) _) as [[e | d] this2] eqn:Hget;
    simpl; [done |].
  intros [= <- <-].
  exists tokenX, tokenY, tier, sqrtPriceX96, gasObject, coins, result, event.
  cbv zeta. by repeat split.
Qed.

(** X14. What a success stands for. When [createPool] reports success,
    exactly one transaction was submitted, after one query for coins, and it
    was executed with the status 'success'; the digest returned is that
    transaction's; the pool id returned is the [pool_id] of one of its
    events, of a type that contains "<moduleName>::PoolCreated"; the provider
    was asked for that pool at most once, last of all; and the pool is in
    the cache under the id returned, with the details returned. *)
Theorem createPool_success params this pool this' :
  createPool H rpc params this = (inr (Created pool), this') →
  created_feeTier pool = default "MEDIUM" (feeTier params)
  ∧ poolCache this' !! poolId pool = Some (details pool)
  ∧ ∃ txb result event rest,
      trace this'
      = trace this
        ++ CallGetCoins (gas_request (signer params))
           :: CallSignAndExecute txb :: rest
      ∧ (rest = [] ∨ rest = [CallGetObject (poolId pool)])
      ∧ signAndExecuteTransactionBlock (signer params) txb = inr result
      ∧ status result = "success"
      ∧ transactionDigest pool = digest result
      ∧ event ∈ events result
      ∧ Js.includes (moduleName this +:+ "::PoolCreated") (event_type event) = true
      ∧ poolId pool = pool_id event.
Proof.
  intros (tokenX & tokenY & tier & sqrtPriceX96 & gasObject & coins & result
          & event & _ & _ & _ & _ & Hsign & Hstatus & Hfind & Hget & ->)
         %createPool_Created.
  simpl. split; [done |].
  split; [by eapply getPoolDetails_cached |].
  destruct (find_Some _ _ _ Hfind) as (before & after & Hevents & Hmatch & _).
  set (txb := create_pool_txb this tokenX tokenY tier sqrtPriceX96 gasObject) in *.
  assert (∃ rest,
            trace this'
            = trace this
              ++ CallGetCoins (gas_request (signer params))
                 :: CallSignAndExecute txb :: rest
            ∧ (rest = [] ∨ rest = [CallGetObject (pool_id event)]))
    as (rest & Htrace & Hrest).
  { destruct (poolCache
                (add_effect (CallSignAndExecute txb)
                   (add_effect (CallGetCoins (gas_request (signer params))) this))
              !! pool_id event) as [cached |] eqn:Hc.
    - rewrite (getPoolDetails_hit _ _ _ _ _ Hc) in Hget.
      injection Hget as _ <-. exists []. simpl.
      rewrite <- (assoc_L (++)). by split; [| left].
    - destruct (getPoolDetails_fresh H rpc _ _ _ _ Hc Hget)
        as (_ & _ & _ & _ & _ & _ & _ & _ & _ & _ & ->).
      exists [CallGetObject (pool_id event)]. simpl.
      rewrite <- !(assoc_L (++)). by split; [| right]. }
  exists txb, result, event, rest.
  repeat split; try done.
  rewrite Hevents. set_solver.
Qed.

End Outcomes.

(** ** The defaults of [createPool] (lines 66-72) *)

Section Defaults.

Context {Metadata Tvl : Type}.
Variable H : @Helpers Metadata Tvl.
Variable rpc : Provider.

Lemma getPoolDetails_trace poolId this :
  ∃ rest, trace (getPoolDetails H rpc poolId this).2 = trace this ++ rest.
Proof.
  destruct (poolCache this !! poolId) as [cached |] eqn:Hc.
  - rewrite (getPoolDetails_hit _ _ _ _ _ Hc). exists []. simpl.
    by rewrite (right_id_L [] (++)).
  - destruct (getPoolDetails_miss H rpc poolId this Hc) as [[d ->] | [e ->]];
      simpl; [by eexists |].
    rewrite <- (assoc_L (++)). by eexists.
Qed.

(** With its arguments accepted and a coin at hand, [createPool] asks for
    the coins and submits the transaction of lines 100-115, whatever comes
    after. *)
Lemma createPool_submits
    params this tokenX tokenY tier sqrtPriceX96 gasObject coins :
  sortTokens H (coinTypeA params) (coinTypeB params) = inr (tokenX, tokenY) →
  resolve_tier (default "MEDIUM" (feeTier params)) = inr tier →
  priceToSqrtPriceX96 H (default "1.0" (initialPrice params)) = inr sqrtPriceX96 →
  getCoins rpc (gas_request (signer params)) = inr (gasObject :: coins) →
  ∃ rest,
    trace (createPool H rpc params this).2
    = trace this
      ++ CallGetCoins (gas_request (signer params))
         :: CallSignAndExecute
              (create_pool_txb this tokenX tokenY tier sqrtPriceX96 gasObject)
         :: rest.
Proof.
  intros Hsort Htier Hprice Hcoins.
  destruct (signAndExecuteTransactionBlock (signer params)
              (create_pool_txb this tokenX tokenY tier sqrtPriceX96 gasObject))
    as [e | result] eqn:Hsign.
  - unfold createPool. run.
    rewrite Hsort. simpl. rewrite Htier. simpl. rewrite Hprice. simpl.
    rewrite Hcoins. simpl. rewrite Hsign. simpl.
    rewrite <- !(assoc_L (++)). by eexists.
  - destruct (String.eqb_spec (status result) "success") as [Hstatus | Hstatus].
    + rewrite (createPool_submitted H rpc params this tokenX tokenY tier
                 sqrtPriceX96 gasObject coins result) by done.
      destruct (Js.find _ _) as [event |].
      * destruct (getPoolDetails_trace (pool_id event)
                    (add_effect
                       (CallSignAndExecute
                          (create_pool_txb this tokenX tokenY tier sqrtPriceX96
                             gasObject))
                       (add_effect (CallGetCoins (gas_request (signer params)))
                          this))) as [rest Hrest].
        destruct (getPoolDetails H rpc (pool_id event) _) as [[e | d] this2];
          simpl in *; rewrite Hrest, <- !(assoc_L (++)); by eexists.
      * simpl. rewrite <- !(assoc_L (++)). by eexists.
    + unfold createPool. run.
      rewrite Hsort. simpl. rewrite Htier. simpl. rewrite Hprice. simpl.
      rewrite Hcoins. simpl. rewrite Hsign. simpl.
      destruct (String.eqb_spec (status result) "success"); [done |]. simpl.
      rewrite <- !(assoc_L (++)). by eexists.
Qed.

(** C10. An absent [feeTier] is 'MEDIUM' and an absent [initialPrice] is
    "1.0". The call with the property absent and the call with the default
    written out are the same computation. And the default is what is used:
    with tokens that sort and a coin at hand, the call without a fee tier
    submits a pool creation whose fee is 3000 parts per million and whose
    tick spacing is 60, and reports 'MEDIUM' when it succeeds; the call
    without a price converts "1.0", fails with the error of that conversion
    when it fails, and otherwise submits its result as the initial
    square-root price. *)
Theorem createPool_defaults
    a b who tier price this tokenX tokenY gasObject coins :
  let without_tier :=
    {| coinTypeA := a; coinTypeB := b; feeTier := None;
       signer := who; initialPrice := price |} in
  let without_price :=
    {| coinTypeA := a; coinTypeB := b; feeTier := tier;
       signer := who; initialPrice := None |} in
  let submitted (params : CreatePoolParams) (fee spacing : Js.value)
      (sqrtPriceX96 : string) :=
    ∃ call rest,
      trace (createPool H rpc params this).2
      = trace this
        ++ CallGetCoins (gas_request who)
           :: CallSignAndExecute
                {| moveCalls := [call]; gasPayment := [coinObjectId gasObject] |}
           :: rest
      ∧ arguments call
        = [ tx_object (lpRegistryId this);
            tx_pure (Js.Str tokenX);
            tx_pure (Js.Str tokenY);
            tx_pure fee;
            tx_pure spacing;
            tx_pure (Js.Str sqrtPriceX96) ] in
  sortTokens H a b = inr (tokenX, tokenY) →
  getCoins rpc (gas_request who) = inr (gasObject :: coins) →
  (createPool H rpc without_tier this
   = createPool H rpc
       {| coinTypeA := a; coinTypeB := b; feeTier := Some "MEDIUM";
          signer := who; initialPrice := price |} this
   ∧ (∀ sqrtPriceX96,
        priceToSqrtPriceX96 H (default "1.0" price) = inr sqrtPriceX96 →
        submitted without_tier (Js.Num 3000) (Js.Num 60) sqrtPriceX96)
   ∧ (∀ created this',
        createPool H rpc without_tier this = (inr (Created created), this') →
        created_feeTier created = "MEDIUM"))
  ∧ (createPool H rpc without_price this
     = createPool H rpc
         {| coinTypeA := a; coinTypeB := b; feeTier := tier;
            signer := who; initialPrice := Some "1.0" |} this
     ∧ (∀ resolved,
          resolve_tier (default "MEDIUM" tier) = inr resolved →
          match priceToSqrtPriceX96 H "1.0" with
          | inr sqrtPriceX96 =>
              submitted without_price (Js.Num (fee_ppm resolved))
                (tier_tickSpacing resolved) sqrtPriceX96
          | inl error =>
              createPool H rpc without_price this
              = (inr (Failed (message error)),
                 add_effect (ConsoleError "Error creating liquidity pool:" error)
                   this)
          end)).
Proof.
  intros without_tier without_price submitted Hsort Hcoins.
  split; (split; [reflexivity |]).
  - split.
    + intros sqrtPriceX96 Hprice.
      destruct (createPool_submits without_tier this tokenX tokenY
                  (Tier {| fee := 0.003; tickSpacing := 60 |}) sqrtPriceX96
                  gasObject coins Hsort eq_refl Hprice Hcoins) as [rest Hrest].
      eexists _, rest. split; [exact Hrest | reflexivity].
    + intros created this' Hcreated.
      destruct (createPool_Created H rpc _ _ _ _ Hcreated)
        as (? & ? & ? & ? & ? & ? & ? & ? & _ & _ & _ & _ & _ & _ & _ & _ & ->).
      reflexivity.
  - intros resolved Htier.
    destruct (priceToSqrtPriceX96 H "1.0") as [error | sqrtPriceX96] eqn:Hprice.
    + apply createPool_stops. right. right. by exists (tokenX, tokenY), resolved.
    + destruct (createPool_submits without_price this tokenX tokenY resolved
                  sqrtPriceX96 gasObject coins Hsort Htier Hprice Hcoins)
        as [rest Hrest].
      eexists _, rest. split; [exact Hrest | reflexivity].
Qed.

End Defaults.

(** C10 on the ledger: a pool is created without a fee tier and without a
    price. The transaction submitted carries 3000 parts per million, the
    spacing 60 and the square-root price of 1.0, and the result says
    'MEDIUM'. *)
Lemma createPool_defaults_on_ledger :
  ∃ created this' call,
    createPool Ledger.helpers (Ledger.rpc "0")
      (Ledger.create None None Ledger.alice) Ledger.fresh
    = (inr (Created created), this')
    ∧ created_feeTier created = "MEDIUM"
    ∧ CallSignAndExecute {| moveCalls := [call]; gasPayment := ["0xc0"] |}
      ∈ trace this'
    ∧ arguments call
      = [ tx_object LP_REGISTRY_ID;
          tx_pure (Js.Str Ledger.SUI);
          tx_pure (Js.Str Ledger.USDC);
          tx_pure (Js.Num 3000);
          tx_pure (Js.Num 60);
          tx_pure (Js.Str "79228162514264337593543950336") ].
Proof.
  destruct (createPool_defaults Ledger.helpers (Ledger.rpc "0")
              Ledger.USDC Ledger.SUI Ledger.alice None None Ledger.fresh
              Ledger.SUI Ledger.USDC {| coinObjectId := "0xc0" |} []
              eq_refl eq_refl) as [(_ & Hsubmitted & Hmedium) _].
  destruct (Hsubmitted "79228162514264337593543950336" eq_refl)
    as (call & rest & Htrace & Harguments).
  unfold Ledger.create.
  destruct (createPool Ledger.helpers (Ledger.rpc "0") _ Ledger.fresh)
    as [[e | [created | error]] this'] eqn:Hcall;
    [by vm_compute in Hcall | | by vm_compute in Hcall].
  exists created, this', call. split; [done |].
  split; [by eapply Hmedium |].
  split; [| exact Harguments].
  simpl in Htrace. rewrite Htrace. set_solver.
Defined.

(** ** How [addLiquidity] begins (lines 248-296) *)

(** With the pool in the cache the method asks for the coins only. *)
Lemma addLiquidity_head_cached {Metadata Tvl : Type}
    (H : @Helpers Metadata Tvl) (rpc : Provider) params this cached :
  poolCache this !! al_poolId params = Some cached →
  ∃ r this',
    addLiquidity_head H rpc params this = (r, this')
    ∧ trace this'
      = trace this
        ++ [ CallGetCoins (coins_request (al_signer params) (pd_tokenX cached));
             CallGetCoins (coins_request (al_signer params) (pd_tokenY cached)) ]
    ∧ poolCache this' = poolCache this
    ∧ match r with inr head => pool head = cached | inl _ => True end.
Proof.
  intros Hc. unfold addLiquidity_head.
  unfold mbind at 1, M_bind at 1, bind at 1.
  rewrite (getPoolDetails_hit _ _ _ _ _ Hc). run.
  destruct (getCoins rpc (coins_request (al_signer params) (pd_tokenX cached)))
    as [e | [| cX coinsX]];
    destruct (getCoins rpc (coins_request (al_signer params) (pd_tokenY cached)))
      as [e' | [| cY coinsY]];
    simpl; eexists _, _; (split; [reflexivity |]); simpl;
    by rewrite <- (assoc_L (++)).
Qed.

Section Beginning.

Context {Metadata Tvl : Type}.
Variable H : @Helpers Metadata Tvl.
Variable rpc : Provider.

(** X15. A pool that was just created needs no fetch. After a
    [createPool] that reported success, [addLiquidity] for the pool id it
    returned works on the details it returned: it asks the provider for the
    coins of the two token types of those details and for nothing else,
    whatever the provider and the helper methods would answer by then. *)
Theorem createPool_then_addLiquidity
    (H' : @Helpers Metadata Tvl) (rpc' : Provider) params this created this' add :
  createPool H rpc params this = (inr (Created created), this') →
  al_poolId add = poolId created →
  ∃ r this'',
    addLiquidity_head H' rpc' add this' = (r, this'')
    ∧ trace this''
      = trace this'
        ++ [ CallGetCoins
               (coins_request (al_signer add) (pd_tokenX (details created)));
             CallGetCoins
               (coins_request (al_signer add) (pd_tokenY (details created))) ]
    ∧ match r with inr head => pool head = details created | inl _ => True end.
Proof.
  intros Hcreate Hid.
  destruct (createPool_Created H rpc _ _ _ _ Hcreate)
    as (tokenX & tokenY & tier & sqrtPriceX96 & gasObject & coins & result
        & event & _ & _ & _ & _ & _ & _ & _ & Hget & Hcreated).
  apply getPoolDetails_cached in Hget.
  assert (Hcached : poolCache this' !! al_poolId add = Some (details created)).
  { rewrite Hid, Hcreated. exact Hget. }
  destruct (addLiquidity_head_cached H' rpc' add this' _ Hcached)
    as (r & this'' & Hhead & Htrace & _ & Hpool).
  by exists r, this''.
Qed.

(** X16. Coins of both tokens are required. When the pool is at hand and
    both queries for coins are answered, one of them with no coin at all,
    the visible part of [addLiquidity] throws, inside its [try] (whose
    [catch] lies past the end of the source), 'Insufficient coins for
    liquidity provision'. Both queries were made, each for one token type of
    the pool and the signer's address, and the pool stays cached. *)
Theorem addLiquidity_without_coins params this pool this1 coinsX coinsY :
  getPoolDetails H rpc (al_poolId params) this = (inr pool, this1) →
  getCoins rpc (coins_request (al_signer params) (pd_tokenX pool)) = inr coinsX →
  getCoins rpc (coins_request (al_signer params) (pd_tokenY pool)) = inr coinsY →
  coinsX = [] ∨ coinsY = [] →
  ∃ this',
    addLiquidity_head H rpc params this
    = (inl (Error "Insufficient coins for liquidity provision"), this')
    ∧ trace this'
      = trace this1
        ++ [ CallGetCoins {| owner := getAddress (al_signer params);
                             coinType := Some (pd_tokenX pool); limit := None |};
             CallGetCoins {| owner := getAddress (al_signer params);
                             coinType := Some (pd_tokenY pool); limit := None |} ]
    ∧ poolCache this' !! al_poolId params = Some pool.
Proof.
  intros Hpool HX HY Hempty.
  pose proof (getPoolDetails_cached _ _ _ _ _ _ Hpool) as Hcached.
  unfold addLiquidity_head.
  unfold mbind at 1, M_bind at 1, bind at 1. rewrite Hpool. run.
  rewrite HX, HY. simpl.
  eexists. split; [| split].
  - destruct Hempty as [-> | ->]; [done | by destruct coinsX].
  - simpl. by rewrite <- (assoc_L (++)).
  - done.
Qed.

(** X17. Without the pool nothing else is asked. When the pool is not
    cached and the provider's [getObject] fails, [addLiquidity] throws
    'Failed to fetch pool details: ' followed by the provider's message,
    after that one call: no coin is asked for, and nothing is cached. *)
Theorem addLiquidity_pool_unavailable params this cause :
  poolCache this !! al_poolId params = None →
  getObject rpc (al_poolId params) = inl cause →
  ∃ this',
    addLiquidity_head H rpc params this
    = (inl (Error ("Failed to fetch pool details: " +:+ message cause)), this')
    ∧ trace this'
      = trace this
        ++ [ CallGetObject (al_poolId params);
             ConsoleError
               ("Error fetching pool details for " +:+ al_poolId params +:+ ":")
               cause ]
    ∧ poolCache this' = poolCache this.
Proof.
  intros Hmiss Hfail. unfold addLiquidity_head.
  unfold mbind at 1, M_bind at 1, bind at 1.
  rewrite (getPoolDetails_fetch_failure H rpc _ _ _ Hmiss Hfail).
  eexists. split; [done |]. split; [| done].
  simpl. by rewrite <- (assoc_L (++)).
Qed.

End Beginning.

(** ** The event of a pool creation (lines 131-133) *)

Lemma append_assoc (a b c : string) : (a +:+ b) +:+ c = a +:+ b +:+ c.
Proof.
  induction a as [| x a IH]; [done |].
  change (String x ((a +:+ b) +:+ c) = String x (a +:+ b +:+ c)). by rewrite IH.
Qed.

Lemma prefix_append a b :
  String.prefix a b = true ↔ ∃ c, b = a +:+ c.
Proof.
  revert b. induction a as [| x a IH]; intros b.
  - split; [by exists b | by destruct b].
  - destruct b as [| y b]; simpl.
    + split; [done | by intros [c [=]]].
    + destruct (Ascii.ascii_dec x y) as [<- | Hne].
      * rewrite IH. split; intros [c Hc]; exists c.
        -- change (String x b = String x (a +:+ c)). by rewrite Hc.
        -- by injection Hc.
      * split; [done |]. intros [c Hc]. by injection Hc.
Qed.

Lemma includes_append needle hay :
  Js.includes needle hay = true ↔ ∃ before after, hay = before +:+ needle +:+ after.
Proof.
  induction hay as [| y hay IH].
  - change (Js.includes needle "") with (String.prefix needle "" || false).
    rewrite orb_false_r, prefix_append. split.
    + intros [c Hc]. by exists "", c.
    + intros ([| ? ?] & after & Hhay); [by exists after | done].
  - change (Js.includes needle (String y hay))
      with (String.prefix needle (String y hay) || Js.includes needle hay).
    rewrite orb_true_iff, prefix_append, IH. split.
    + intros [[c Hc] | (before & after & ->)].
      * by exists "", c.
      * by exists (String y before), after.
    + intros ([| x before] & after & Hhay).
      * left. by exists after.
      * right. exists before, after. by injection Hhay.
Qed.

(** X18. Which events count as the creation of a pool. An event is taken
    for it exactly when its type contains the module name followed by
    "::PoolCreated", whatever stands before and after: the package in front
    is not compared, and a longer name that begins with [PoolCreated] counts
    as well. *)
Theorem is_PoolCreated_iff {Metadata Tvl : Type}
    (this : @SuiLiquidityPool Metadata Tvl) event :
  is_PoolCreated this event = true
  ↔ ∃ before after,
      event_type event
      = before +:+ moduleName this +:+ "::PoolCreated" +:+ after.
Proof.
  unfold is_PoolCreated. rewrite includes_append.
  by setoid_rewrite append_assoc.
Qed.

(** ** The constructor and the fee table *)

(** X19. An instance is never without its three names. Whatever the
    configuration, the package id, the registry id and the module name of a
    new instance are not empty, and its cache is empty: an override that is
    not empty is taken as it is, and an absent or empty one gives way to the
    constant of the module. *)
Theorem constructor_names {Metadata Tvl : Type} config :
  let this := constructor (Metadata := Metadata) (Tvl := Tvl) config in
  let chosen (override : option string) (constant : string) :=
    match override with
    | Some "" | None => constant
    | Some name => name
    end in
  packageId this = chosen (cfg_packageId config) DEX_PACKAGE_ID
  ∧ lpRegistryId this = chosen (cfg_lpRegistryId config) LP_REGISTRY_ID
  ∧ moduleName this = chosen (cfg_moduleName config) MODULE_NAME
  ∧ packageId this ≠ "" ∧ lpRegistryId this ≠ "" ∧ moduleName this ≠ ""
  ∧ poolCache this = ∅.
Proof.
  simpl.
  destruct (cfg_packageId config) as [[| ? ?] |];
    destruct (cfg_lpRegistryId config) as [[| ? ?] |];
    destruct (cfg_moduleName config) as [[| ? ?] |]; by repeat split.
Qed.

(** X20. A fee survives the trip through parts per million. For every
    tier of the table, the fee that [createPool] sends (line 107) is a whole
    number of parts per million, and when the ledger returns that number as
    a decimal numeral, [getPoolDetails] computes from it (line 205) the very
    fee of the table, bit for bit. *)
Theorem fee_survives_ppm name tier :
  FEE_TIERS !! name = Some tier →
  ∃ ppm : Z,
    fee_ppm (Tier tier) = Js.of_Z ppm
    ∧ (ParseInt.parseInt (pretty ppm) / 1000000)%float = fee tier.
Proof.
  unfold FEE_TIERS. intros Htier.
  destruct (decide (name = "LOW")) as [-> | ?];
    [| destruct (decide (name = "MEDIUM")) as [-> | ?];
       [| destruct (decide (name = "HIGH")) as [-> | ?]]].
  - injection Htier as <-. by exists 500.
  - injection Htier as <-. by exists 3000.
  - injection Htier as <-. by exists 10000.
  - by rewrite !lookup_insert_ne, lookup_empty in Htier.
Qed.

(** * The further properties on concrete ledgers *)

(** X1 on the ledger's pool: its type has the shape that the pattern asks
    for, around the two token types. *)
Lemma pool_type_match_sound_on_ledger :
  ∃ before ws after,
    Ledger.pool_type
    = before +:+ "<" +:+ Ledger.SUI +:+ "," +:+ ws +:+ Ledger.USDC +:+ ">" +:+ after.
Proof.
  assert (Hexec : Re.exec pool_type_pattern Ledger.pool_type
                  = Some [Ledger.SUI; Ledger.USDC]) by (vm_compute; reflexivity).
  destruct (pool_type_match_sound _ _ Hexec)
    as (before & tokenX & ws & tokenY & after & Hcaps & Htype & _).
  injection Hcaps as <- <-. by exists before, ws, after.
Defined.

(** X2 on a pool whose second token has a type argument: the second capture
    stops at the first [>], inside that token. *)
Lemma pool_type_match_complete_on_nested_type :
  Re.exec pool_type_pattern Cases.nested_type
  = Some ["0x2::sui::SUI"; "0x2::coin::Coin<0x5::usdc::USDC"].
Proof.
  exact (pool_type_match_complete "0x1::liquidity_pool::Pool" "0x2::sui::SUI" " "
           "0x2::coin::Coin<0x5::usdc::USDC" ">"
           eq_refl ltac:(done) eq_refl eq_refl ltac:(done) eq_refl eq_refl).
Defined.

(** X3 on a pool below the price one: fee 0.003, spacing 60, tick -600. *)
Lemma getPoolDetails_reads_fields_on_ledger :
  ∃ d this',
    getPoolDetails Ledger.helpers Cases.rpc_below "0xpool" Ledger.fresh
    = (inr d, this')
    ∧ pd_fee d = 0.003%float
    ∧ pd_tickSpacing d = 60%float
    ∧ pd_currentTick d = (-600)%float.
Proof.
  destruct (getPoolDetails Ledger.helpers Cases.rpc_below "0xpool" Ledger.fresh)
    as [[e | d] this'] eqn:Hcall; [by vm_compute in Hcall |].
  exists d, this'. split; [done |].
  destruct (getPoolDetails_reads_fields Ledger.helpers Cases.rpc_below "0xpool"
              Ledger.fresh Cases.pool_below 3000 60 (-600) d this'
              eq_refl eq_refl eq_refl eq_refl eq_refl Hcall)
    as (_ & -> & -> & -> & _).
  by repeat split.
Defined.

(** X4 on the ledger: the pool is read at liquidity 1000; read again when
    the ledger holds 5000, it is the pool at 1000 still. *)
Lemma getPoolDetails_repeat_on_ledger :
  ∃ d this1,
    getPoolDetails Ledger.helpers (Ledger.rpc "1000") "0xpool" Ledger.fresh
    = (inr d, this1)
    ∧ getPoolDetails Ledger.helpers (Ledger.rpc "5000") "0xpool" this1
      = (inr d, this1).
Proof.
  destruct (getPoolDetails Ledger.helpers (Ledger.rpc "1000") "0xpool" Ledger.fresh)
    as [[e | d] this1] eqn:Hcall; [by vm_compute in Hcall |].
  exists d, this1. split; [done |].
  exact (getPoolDetails_repeat Ledger.helpers (Ledger.rpc "1000") Ledger.helpers
           (Ledger.rpc "5000") "0xpool" Ledger.fresh d this1 Hcall).
Defined.

(** X5 on the ledger: reading one pool leaves the entry of another id as it
    was, here absent. *)
Lemma getPoolDetails_frame_on_ledger :
  poolCache
    (getPoolDetails Ledger.helpers (Ledger.rpc "0") "0xpool" Ledger.fresh).2
  !! "0xother" = None.
Proof.
  destruct (getPoolDetails_frame Ledger.helpers (Ledger.rpc "0") "0xpool"
              "0xother" Ledger.fresh ltac:(done)) as [-> _].
  reflexivity.
Defined.

(** X6 on a provider that cannot be reached. *)
Lemma getPoolDetails_failure_on_ledger :
  ∃ error this',
    getPoolDetails Ledger.helpers Cases.rpc_down "0xpool" Ledger.fresh
    = (inl error, this')
    ∧ poolCache this' = ∅
    ∧ ∃ cause, error = Error ("Failed to fetch pool details: " +:+ message cause).
Proof.
  destruct (getPoolDetails Ledger.helpers Cases.rpc_down "0xpool" Ledger.fresh)
    as [[error | d] this'] eqn:Hcall; [| by vm_compute in Hcall].
  exists error, this'. split; [done |].
  destruct (getPoolDetails_failure Ledger.helpers Cases.rpc_down "0xpool"
              Ledger.fresh error this' Hcall) as (_ & -> & cause & -> & _).
  split; [reflexivity | by exists cause].
Defined.

(** X7 on the ledger: no pool is held under ["0xnone"]. *)
Lemma getPoolDetails_refusals_on_ledger :
  (getPoolDetails Ledger.helpers (Ledger.rpc "0") "0xnone" Ledger.fresh).1
  = inl (Error "Failed to fetch pool details: Pool with ID 0xnone not found").
Proof.
  destruct (getPoolDetails_refusals Ledger.helpers (Ledger.rpc "0") "0xnone"
              Ledger.fresh eq_refl) as [Hnone _].
  by destruct (Hnone eq_refl) as [-> _].
Defined.

(** X8 on the ledger: after a pool creation from a new instance. *)
Lemma cache_stays_keyed_on_ledger :
  cache_keyed
    (createPool Ledger.helpers (Ledger.rpc "0")
       (Ledger.create None None Ledger.alice) Ledger.fresh).2.
Proof.
  destruct (cache_stays_keyed Ledger.helpers (Ledger.rpc "0") Ledger.fresh
              (constructor_keyed empty_config)) as (_ & Hcreate & _).
  apply Hcreate.
Defined.

(** X11 on the ledger: the tier "ULTRA". *)
Lemma createPool_refuses_unknown_tier_on_ledger :
  (createPool Ledger.helpers (Ledger.rpc "0")
     (Ledger.create (Some "ULTRA") None Ledger.alice) Ledger.fresh).1
  = inr (Failed "Invalid fee tier: ULTRA. Must be LOW, MEDIUM, or HIGH.").
Proof.
  rewrite (createPool_refuses_unknown_tier Ledger.helpers (Ledger.rpc "0")
             (Ledger.create (Some "ULTRA") None Ledger.alice) Ledger.fresh
             "ULTRA" (Ledger.SUI, Ledger.USDC)
             eq_refl ltac:(done) ltac:(done) ltac:(done)
             ltac:(by apply (bool_decide_unpack _)) eq_refl).
  reflexivity.
Defined.

(** X12 on the ledger: the signer owns no coin. *)
Lemma createPool_without_gas_on_ledger :
  (createPool Ledger.helpers Cases.rpc_broke
     (Ledger.create None None Ledger.alice) Ledger.fresh).1
  = inr (Failed "No gas objects available for transaction").
Proof.
  destruct (createPool_without_gas Ledger.helpers Cases.rpc_broke
              (Ledger.create None None Ledger.alice) Ledger.fresh
              (Ledger.SUI, Ledger.USDC)
              (Tier {| fee := 0.003; tickSpacing := 60 |})
              "79228162514264337593543950336"
              eq_refl eq_refl eq_refl eq_refl) as (this' & -> & _).
  reflexivity.
Defined.

(** X13 on the ledger: the transaction is executed and aborts. *)
Lemma createPool_transaction_failed_on_ledger :
  (createPool Ledger.helpers (Ledger.rpc "0")
     (Ledger.create None None Cases.bob) Ledger.fresh).1
  = inr (Failed "Transaction failed: MoveAbort").
Proof.
  destruct (createPool_transaction_failed Ledger.helpers (Ledger.rpc "0")
              (Ledger.create None None Cases.bob) Ledger.fresh
              Ledger.SUI Ledger.USDC
              (Tier {| fee := 0.003; tickSpacing := 60 |})
              "79228162514264337593543950336"
              {| coinObjectId := "0xc0" |} [] Cases.aborted
              eq_refl eq_refl eq_refl eq_refl eq_refl ltac:(done))
    as (this' & -> & _).
  reflexivity.
Defined.

(** X14 on the ledger: the pool of the ledger is created and cached. *)
Lemma createPool_success_on_ledger :
  ∃ created this',
    createPool Ledger.helpers (Ledger.rpc "0")
      (Ledger.create None None Ledger.alice) Ledger.fresh
    = (inr (Created created), this')
    ∧ poolCache this' !! poolId created = Some (details created)
    ∧ created_feeTier created = "MEDIUM".
Proof.
  destruct (createPool Ledger.helpers (Ledger.rpc "0")
              (Ledger.create None None Ledger.alice) Ledger.fresh)
    as [[e | [created | error]] this'] eqn:Hcall;
    [by vm_compute in Hcall | | by vm_compute in Hcall].
  exists created, this'. split; [done |].
  destruct (createPool_success Ledger.helpers (Ledger.rpc "0") _ _ _ _ Hcall)
    as (Htier & Hcached & _).
  by split.
Defined.

(** X15 on the ledger: liquidity is added to the pool just created, when
    the provider can no longer be reached for the pool. *)
Lemma createPool_then_addLiquidity_on_ledger :
  ∃ created this' r this'',
    createPool Ledger.helpers (Ledger.rpc "0")
      (Ledger.create None None Ledger.alice) Ledger.fresh
    = (inr (Created created), this')
    ∧ addLiquidity_head Ledger.helpers Cases.rpc_down (Ledger.add None) this'
      = (r, this'')
    ∧ CallGetObject "0xpool" ∉ drop (length (trace this')) (trace this'').
Proof.
  destruct (createPool Ledger.helpers (Ledger.rpc "0")
              (Ledger.create None None Ledger.alice) Ledger.fresh)
    as [[e | [created | error]] this'] eqn:Hcall;
    [by vm_compute in Hcall | | by vm_compute in Hcall].
  assert (Hid : al_poolId (Ledger.add None) = poolId created).
  { vm_compute in Hcall. by injection Hcall as <- _. }
  destruct (createPool_then_addLiquidity Ledger.helpers (Ledger.rpc "0")
              Ledger.helpers Cases.rpc_down _ _ _ _ (Ledger.add None) Hcall Hid)
    as (r & this'' & Hhead & Htrace & _).
  exists created, this', r, this''. split; [done |]. split; [done |].
  rewrite Htrace, drop_app_length. set_solver.
Defined.

(** X16 on the ledger: the signer owns no coin of either token. *)
Lemma addLiquidity_without_coins_on_ledger :
  (addLiquidity_head Ledger.helpers Cases.rpc_broke (Ledger.add None)
     Ledger.fresh).1
  = inl (Error "Insufficient coins for liquidity provision").
Proof.
  destruct (getPoolDetails Ledger.helpers Cases.rpc_broke "0xpool" Ledger.fresh)
    as [[e | d] this1] eqn:Hpool; [by vm_compute in Hpool |].
  destruct (addLiquidity_without_coins Ledger.helpers Cases.rpc_broke
              (Ledger.add None) Ledger.fresh d this1 [] []
              Hpool eq_refl eq_refl (or_introl eq_refl)) as (this' & -> & _).
  reflexivity.
Defined.

(** X17 on a provider that cannot be reached. *)
Lemma addLiquidity_pool_unavailable_on_ledger :
  (addLiquidity_head Ledger.helpers Cases.rpc_down (Ledger.add None)
     Ledger.fresh).1
  = inl (Error "Failed to fetch pool details: connect ETIMEDOUT").
Proof.
  destruct (addLiquidity_pool_unavailable Ledger.helpers Cases.rpc_down
              (Ledger.add None) Ledger.fresh (Error "connect ETIMEDOUT")
              eq_refl eq_refl) as (this' & -> & _).
  reflexivity.
Defined.

(** X20 on the tier MEDIUM: 3000 parts per million and back. *)
Lemma fee_survives_ppm_on_MEDIUM :
  ∃ ppm : Z,
    Js.of_Z ppm = 3000%float
    ∧ (ParseInt.parseInt (pretty ppm) / 1000000)%float = 0.003%float.
Proof.
  destruct (fee_survives_ppm "MEDIUM" {| fee := 0.003; tickSpacing := 60 |}
              eq_refl) as (ppm & Hppm & Hfee).
  exists ppm. split; [by rewrite <- Hppm | exact Hfee].
Defined.

(** ** What [addLiquidity] has prepared (lines 259-296) *)

Section Prepared.

Context {Metadata Tvl : Type}.
Variable H : @Helpers Metadata Tvl.
Variable rpc : Provider.

(** X21. What the visible part of [addLiquidity] has at hand when it gets
    as far as the source goes. The pool is the one now cached under the pool
    id; both queries for coins were answered with a coin, and the coins used
    are the first of each answer, with no regard to the others; the two
    minimums are [Math.floor(amount * (1 - slippageTolerance))] in binary64
    arithmetic, with the tolerance 0.01 when the caller gives none, and
    depend on nothing else; the call is aimed at [add_liquidity] of the
    instance's package and module, and its arguments begin with the pool,
    the two ticks and the first coin. *)
Theorem addLiquidity_prepares params this head this' :
  let tolerance := default 0.01%float (slippageTolerance params) in
  addLiquidity_head H rpc params this = (inr head, this') →
  poolCache this' !! al_poolId params = Some (pool head)
  ∧ (∃ cX coinsX cY coinsY,
       getCoins rpc (coins_request (al_signer params) (pd_tokenX (pool head)))
       = inr (cX :: coinsX)
       ∧ getCoins rpc (coins_request (al_signer params) (pd_tokenY (pool head)))
         = inr (cY :: coinsY)
       ∧ coinX head = coinObjectId cX
       ∧ coinY head = coinObjectId cY)
  ∧ amount0Min head = Js.Math_floor (amountX params * (1 - tolerance))%float
  ∧ amount1Min head = Js.Math_floor (amountY params * (1 - tolerance))%float
  ∧ head_target head
    = packageId this +:+ "::" +:+ moduleName this +:+ "::add_liquidity"
  ∧ head_arguments head
    = [ tx_object (al_poolId params);
        tx_pure (Js.Num (tickLower params));
        tx_pure (Js.Num (tickUpper params));
        tx_object (coinX head) ].
Proof.
  intros tolerance. unfold addLiquidity_head.
  unfold mbind at 1, M_bind at 1, bind at 1.
  destruct (getPoolDetails H rpc (al_poolId params) this)
    as [[e | d] this1] eqn:Hpool; [done |].
  pose proof (getPoolDetails_cached _ _ _ _ _ _ Hpool) as Hcached.
  destruct (getPoolDetails_extends H rpc (al_poolId params) this) as [Hconfig _].
  rewrite Hpool in Hconfig. simpl in Hconfig. injection Hconfig as _ Hp Hr Hm.
  run.
  destruct (getCoins rpc (coins_request (al_signer params) (pd_tokenX d)))
    as [e | [| cX coinsX]] eqn:HX;
    destruct (getCoins rpc (coins_request (al_signer params) (pd_tokenY d)))
      as [e' | [| cY coinsY]] eqn:HY; simpl; try done.
  intros [= <- <-]. simpl. rewrite Hp, Hm.
  split; [done |]. split; [| done]. by exists cX, coinsX, cY, coinsY.
Qed.

End Prepared.

(** X21 on the ledger: 1005 and 250.5 at half a percent give the products
    999.975 and 249.2475, and the minimums 999 and 249. *)
Lemma addLiquidity_prepares_on_ledger :
  ∃ head this',
    addLiquidity_head Ledger.helpers (Ledger.rpc "0") Cases.add_odd Ledger.fresh
    = (inr head, this')
    ∧ amount0Min head = 999%float
    ∧ amount1Min head = 249%float
    ∧ coinX head = "0xc0".
Proof.
  destruct (addLiquidity_head Ledger.helpers (Ledger.rpc "0") Cases.add_odd
              Ledger.fresh) as [[e | head] this'] eqn:Hhead;
    [by vm_compute in Hhead |].
  exists head, this'. split; [done |].
  destruct (addLiquidity_prepares Ledger.helpers (Ledger.rpc "0") Cases.add_odd
              Ledger.fresh head this' Hhead)
    as (_ & (cX & coinsX & cY & coinsY & HX & _ & HcoinX & _) & -> & -> & _).
  split; [reflexivity |]. split; [reflexivity |].
  rewrite HcoinX. by injection HX as <- _.
Defined.
